(** * Promptlyzer Lite: the experiment-evaluation workflow of the frontend

    A shallow embedding of the client code that decides how accuracy is
    resolved, rated, charted and cleared:

    - [RatingModal.jsx]   : the rating workflow (module [RatingModal]);
    - [ResultsView.jsx]   : single-result display and comparison chart
                            (module [ResultsView]);
    - [ExperimentHistory.jsx] : history list, rating save, bulk clear
                            (module [ExperimentHistory]);
    - [PromptTester.jsx]  : sample list, manual add and dataset import
                            (module [PromptTester]);
    - [errorHandler.js]   : [retryOperation] (module [ErrorHandler]),
                            [handleError] and the validation helpers
                            (module [ErrorHandling]);
    - [ApiKeySettings.jsx], [api.js] : the stored keys and the request
                            headers (module [ApiKeySettings]).

    JavaScript numbers that carry fractions (accuracy, cost) are modelled as
    exact rationals [Qc]; every computation below copies them, compares them
    with 0, or averages a few integers between 1 and 5.  Objects used as
    dictionaries are finite maps; React state is passed explicitly; calls
    back to the parent component and toasts are collected as effects. *)

From Stdlib Require Import ZArith QArith Qcanon.
From stdpp Require Import base option list strings gmap fin_maps numbers.

Local Set Warnings "-register-all".
Local Open Scope Z_scope.
Local Open Scope Qc_scope.
Local Open Scope general_if_scope.

(** ** Numbers *)

(** JavaScript truthiness of a number: any number other than 0. *)
Definition num_truthy (q : Qc) : bool := negb (bool_decide (q = 0)).

Definition Math_min (a b : Qc) : Qc := if Qclt_le_dec b a then b else a.
Definition Math_max (a b : Qc) : Qc := if Qclt_le_dec a b then b else a.

(** ** Data model (the shapes the components read) *)

Record SampleResult := {
  input : string;
  output : option string;
  success : bool;
  error : option string;
  tokens : Z;
  cost : Qc;
  sample_accuracy : Qc
}.

(** An experiment as the backend returns it.  [experiment_id] is kept as the
    property key under which JavaScript files it in an object;
    [estimated_cost] and [sample_results] may be missing. *)
Record Experiment := {
  experiment_id : string;
  prompt : string;
  model : string;
  samples_tested : Z;
  avg_tokens : Qc;
  estimated_cost : option Qc;
  sample_results : option (list SampleResult);
  accuracy : Qc
}.

Definition set_accuracy (a : Qc) (e : Experiment) : Experiment :=
  {| experiment_id := experiment_id e; prompt := prompt e; model := model e;
     samples_tested := samples_tested e; avg_tokens := avg_tokens e;
     estimated_cost := estimated_cost e; sample_results := sample_results e;
     accuracy := a |}.

(** One entry of the manual-rating overlay: [{ ratings, accuracy }].
    [ratings] maps an index of the successful-samples subsequence to a star
    value. *)
Module ManualRating.
Record t := {
  ratings : gmap nat Z;
  accuracy : Qc
}.
End ManualRating.

(** The overlay [manualRatings], keyed by experiment id. *)
Abbreviation Overlay := (gmap string ManualRating.t).

(** The [manualRatings] slot of [localStorage]: absent ([getItem] returns
    null) or the JSON text of an overlay.  [JSON.parse (JSON.stringify m)]
    gives back [m] for these plain objects, so the slot holds the map. *)
Definition Storage := option Overlay.

(** [savedRatings ? JSON.parse(savedRatings) : {}] *)
Definition parseSaved (ls : Storage) : Overlay := default ∅ ls.


(** Outcome of a request to the backend as the awaiting code sees it. *)
Inductive response (A : Type) : Type :=
  | Resolved (data : A)
  | Rejected.
Arguments Resolved {A} data.
Arguments Rejected {A}.

(** ** RatingModal.jsx: the rating workflow *)

Module RatingModal.

(** The five star buttons, [[1, 2, 3, 4, 5].map((star) => ...)]. *)
Inductive star := Star1 | Star2 | Star3 | Star4 | Star5.

Definition star_value (s : star) : Z :=
  match s with
  | Star1 => 1 | Star2 => 2 | Star3 => 3 | Star4 => 4 | Star5 => 5
  end%Z.

(** [const successfulSamples = samples ? samples.filter(s => s.success) : []] *)
Definition successfulSamples (samples : option (list SampleResult))
  : list SampleResult :=
  match samples with
  | Some l => filter (λ s, success s) l
  | None => []
  end.

(** Component state.  [timers] holds the pending [setTimeout] callbacks of
    [handleRating]; each closed over the [currentIndex] and the
    [successfulSamples.length] of the render in which the star was clicked. *)
Record state := {
  currentIndex : nat;
  ratings : gmap nat Z;
  timers : list (nat * nat)
}.

(** What a render returns. *)
Inductive view :=
  | RenderNull
  | NoSamplesToRate
  | Reviewing (currentSample : SampleResult)
  | RenderThrows.

Definition render (isOpen : bool) (samples : option (list SampleResult))
    (st : state) : view :=
  let ss := successfulSamples samples in
  let hasSamples :=
    match samples with Some l => Nat.ltb 0 (length l) | None => false end in
  if negb isOpen || Nat.eqb (length ss) 0 then
    if isOpen && hasSamples && Nat.eqb (length ss) 0
    then NoSamplesToRate
    else RenderNull
  else
    match ss !! currentIndex st with
    | Some currentSample => Reviewing currentSample
    | None => RenderThrows
    end.

(** What the component does to the outside: toasts and the two callbacks. *)
Inductive effect :=
  | ToastError (unratedCount : Z)
  | ToastSuccess (averageAccuracy : Qc)
  | OnSaveRatings (ratings : gmap nat Z) (averageAccuracy : Qc)
  | OnClose.

(** [Object.values(ratings).reduce((sum, rating) => sum + rating, 0)] *)
Definition totalRating (r : gmap nat Z) : Z :=
  foldl (λ sum rating, sum + rating)%Z 0%Z ((map_to_list r).*2).

Definition averageAccuracy (ss : list SampleResult) (r : gmap nat Z) : Qc :=
  Math_min (Qc_of_Z 100)
    (Math_max (Qc_of_Z 0)
       (Qc_of_Z (totalRating r) / Qc_of_Z (Z.of_nat (length ss)) * Qc_of_Z 20)).

Definition handleSave (ss : list SampleResult) (st : state) : list effect :=
  let unratedCount := (Z.of_nat (length ss) - Z.of_nat (size (ratings st)))%Z in
  if (0 <? unratedCount)%Z then [ToastError unratedCount]
  else
    let a := averageAccuracy ss (ratings st) in
    [OnSaveRatings (ratings st) a; ToastSuccess a; OnClose].

(** [setRatings({...ratings, [currentIndex]: rating})] and the timer that
    advances later; the callback keeps this render's index and length. *)
Definition handleRating (ss : list SampleResult) (rating : Z) (st : state)
  : state :=
  {| currentIndex := currentIndex st;
     ratings := <[currentIndex st := rating]> (ratings st);
     timers := timers st ++ [(currentIndex st, length ss)] |}.

Definition setCurrentIndex (i : nat) (st : state) : state :=
  {| currentIndex := i; ratings := ratings st; timers := timers st |}.

(** The callback given to [setTimeout] in [handleRating], with the index
    [i] and the length [n] it closed over. *)
Definition timerCallback (i n : nat) (st : state) : state :=
  if (Z.of_nat i <? Z.of_nat n - 1)%Z then setCurrentIndex (i + 1) st else st.

Definition handleNext (ss : list SampleResult) (st : state) : state :=
  if (Z.of_nat (currentIndex st) <? Z.of_nat (length ss) - 1)%Z
  then setCurrentIndex (currentIndex st + 1) st else st.

Definition handlePrevious (st : state) : state :=
  if (0 <? Z.of_nat (currentIndex st))%Z
  then setCurrentIndex (currentIndex st - 1) st else st.

(** The modal together with the two props its parent controls. *)
Record modal := {
  isOpen : bool;
  samples : option (list SampleResult);
  st : state
}.

Definition closed : modal :=
  {| isOpen := false; samples := None;
     st := {| currentIndex := 0; ratings := ∅; timers := [] |} |}.

Definition view_of (m : modal) : view := render (isOpen m) (samples m) (st m).

Definition with_state (m : modal) (s : state) : modal :=
  {| isOpen := isOpen m; samples := samples m; st := s |}.

(** The parent's [onClose]: [setShowRatingModal(false)]. *)
Definition close (m : modal) : modal :=
  {| isOpen := false; samples := samples m; st := st m |}.

Definition calls_onClose (effs : list effect) : bool :=
  existsb (λ e, match e with OnClose => true | _ => false end) effs.

Inductive event :=
  | Open (samples : option (list SampleResult))
  | ClickStar (s : star)
  | ClickNext
  | ClickPrevious
  | ClickSave
  | ClickClose
  | TimerFires (k : nat).

(** The first render after the parent set [isOpen]: the props are new, the
    state is still the one the component was left with. *)
Definition firstRender (smp : option (list SampleResult)) (m : modal)
  : modal :=
  {| isOpen := true; samples := smp; st := st m |}.

(** The [useEffect] on [isOpen], which runs once that render is on the
    page: [setCurrentIndex(0)], [setRatings({})].  Timers set earlier stay
    pending. *)
Definition openEffect (m : modal) : modal :=
  with_state m {| currentIndex := 0; ratings := ∅;
                  timers := timers (st m) |}.

(** One event of the UI loop.  A render that throws takes the component
    off the page: none of its handlers, effects or timer callbacks acts
    again, so such a modal stays as it is.  Opening renders once with the
    state as it was left; when that render throws the effect never runs,
    otherwise the effect resets the index and the ratings.  The handlers
    exist only in a render that reached the rating dialog; the notice has
    the Close button alone.  An open modal covers the page, so its parent
    hands it other [samples] only when it opens it again. *)
Definition step (m : modal) (ev : event) : modal * list effect :=
  let ss := successfulSamples (samples m) in
  match ev, view_of m with
  | _, RenderThrows => (m, [])
  | Open smp, _ =>
      if isOpen m then (m, [])
      else
        match view_of (firstRender smp m) with
        | RenderThrows => (firstRender smp m, [])
        | _ => (openEffect (firstRender smp m), [])
        end
  | TimerFires k, _ =>
      match timers (st m) !! k with
      | Some (i, n) =>
          let s := {| currentIndex := currentIndex (st m);
                      ratings := ratings (st m);
                      timers := delete k (timers (st m)) |} in
          (with_state m (timerCallback i n s), [])
      | None => (m, [])
      end
  | ClickStar s, Reviewing _ =>
      (with_state m (handleRating ss (star_value s) (st m)), [])
  | ClickNext, Reviewing _ => (with_state m (handleNext ss (st m)), [])
  | ClickPrevious, Reviewing _ => (with_state m (handlePrevious (st m)), [])
  | ClickSave, Reviewing _ =>
      let effs := handleSave ss (st m) in
      if calls_onClose effs then (close m, effs) else (m, effs)
  | ClickClose, Reviewing _ => (close m, [OnClose])
  | ClickClose, NoSamplesToRate => (close m, [OnClose])
  | _, _ => (m, [])
  end.

Definition run (m : modal) (evs : list event) : modal :=
  foldl (λ m ev, (step m ev).1) m evs.

(** States the workflow can be in: whatever a sequence of events produces
    from the closed modal. *)
Definition reachable (m : modal) : Prop := ∃ evs, m = run closed evs.

(** The indices of the successful samples that have no rating yet. *)
Definition unrated (ss : list SampleResult) (r : gmap nat Z) : gset nat :=
  set_seq 0 (length ss) ∖ dom r.

(** [ratings] is a total function over the indices [0..length-1]. *)
Definition total (ss : list SampleResult) (r : gmap nat Z) : Prop :=
  ∀ i, (i < length ss)%nat → is_Some (r !! i).

(** Every rated index is an index of a successful sample, and every
    rating is one of the five stars. *)
Definition ratings_in_range (m : modal) : Prop :=
  ∀ i v, ratings (st m) !! i = Some v →
         (i < length (successfulSamples (samples m)))%nat ∧ (1 ≤ v ≤ 5)%Z.

(** The accuracy as the specification words it:
    [clamp(0,100, mean(ratings.values()) * 20)]. *)
Definition clamp_spec (lo hi x : Qc) : Qc :=
  if decide (x < lo) then lo else if decide (hi < x) then hi else x.

Definition mean_spec (r : gmap nat Z) : Qc :=
  Qc_of_Z (foldr Z.add 0%Z ((map_to_list r).*2))
  / Qc_of_Z (Z.of_nat (length ((map_to_list r).*2))).

Definition accuracy_spec (r : gmap nat Z) : Qc :=
  clamp_spec (Qc_of_Z 0) (Qc_of_Z 100) (mean_spec r * Qc_of_Z 20).

(** [Object.keys(ratings).length === successfulSamples.length]: the
    condition under which the Save button and the "all rated" line are
    rendered. *)
Definition saveButtonVisible (ss : list SampleResult) (s : state) : bool :=
  Nat.eqb (size (ratings s)) (length ss).

(** [currentIndex === 0] and [currentIndex === successfulSamples.length - 1],
    the [disabled] attributes of the Previous and Next buttons. *)
Definition previousDisabled (s : state) : bool := Nat.eqb (currentIndex s) 0.

Definition nextDisabled (ss : list SampleResult) (s : state) : bool :=
  (Z.of_nat (currentIndex s) =? Z.of_nat (length ss) - 1)%Z.

(** What holds throughout one session: each pending timer was set in this
    session at an index in range, and the index on screen is in range. *)
Definition inSession (m : modal) : Prop :=
  let n := length (successfulSamples (samples m)) in
  (∀ i k, (i, k) ∈ timers (st m) → k = n ∧ (i < n)%nat)
  ∧ ((currentIndex (st m) < n)%nat ∨ n = 0%nat).

Definition isOpenEvent (ev : event) : bool :=
  match ev with Open _ => true | _ => false end.

End RatingModal.

(** ** ResultsView.jsx: single-result display and comparison chart *)

Module ResultsView.

(** An element of [allExperiments]: the fetched experiment, its [accuracy]
    overwritten and [has_manual_rating] set when the overlay has an entry. *)
Record RatedExperiment := {
  exp : Experiment;
  has_manual_rating : bool
}.

Record state := {
  manualAccuracy : option Qc;
  allExperiments : list RatedExperiment
}.

(** [useState(null)], [useState([])] *)
Definition initial : state := {| manualAccuracy := None; allExperiments := [] |}.

(** The callback of [experiments.map] in [fetchAllExperiments]. *)
Definition mergeRating (manualRatings : Overlay) (e : Experiment)
  : RatedExperiment :=
  match manualRatings !! experiment_id e with
  | Some mr =>
      {| exp := set_accuracy (ManualRating.accuracy mr) e;
         has_manual_rating := true |}
  | None => {| exp := e; has_manual_rating := false |}
  end.

(** [fetchAllExperiments]: [data] is [response.data.experiments], which may
    be missing; a rejected request is logged and changes nothing. *)
Definition fetchAllExperiments (resp : response (option (list Experiment)))
    (ls : Storage) (s : state) : state :=
  match resp with
  | Resolved data =>
      let experiments := default [] data in
      let manualRatings := parseSaved ls in
      {| manualAccuracy := manualAccuracy s;
         allExperiments := mergeRating manualRatings <$> experiments |}
  | Rejected => s
  end.

(** [handleSaveRatings(ratings, averageAccuracy)] for the experiment
    [results] on display; returns the storage slot and the state once the
    refetch it starts has answered with [resp]. *)
Definition handleSaveRatings (results : Experiment)
    (ratings : gmap nat Z) (averageAccuracy : Qc)
    (resp : response (option (list Experiment)))
    (ls : Storage) (s : state) : Storage * state :=
  let s1 := {| manualAccuracy := Some averageAccuracy;
               allExperiments := allExperiments s |} in
  let manualRatings := parseSaved ls in
  let manualRatings' :=
    <[experiment_id results :=
        {| ManualRating.ratings := ratings;
           ManualRating.accuracy := averageAccuracy |}]> manualRatings in
  let ls' := Some manualRatings' in
  (ls', fetchAllExperiments resp ls' s1).


Record ChartPoint := {
  name : string;
  point_model : string;
  experimentId : string;
  point_accuracy : Qc;
  point_cost : Qc;
  point_tokens : Qc;
  isCurrent : bool;
  point_samples : Z
}.

(** [exp.accuracy > 0 && exp.estimated_cost] *)
Definition chartFilter (e : RatedExperiment) : bool :=
  bool_decide (0 < accuracy (exp e)) &&
  match estimated_cost (exp e) with
  | Some c => num_truthy c
  | None => false
  end.

(** The same test in words: accuracy above 0, a cost that is there and is
    not 0. *)
Definition evaluated (e : RatedExperiment) : Prop :=
  0 < accuracy (exp e) ∧
  ∃ c, estimated_cost (exp e) = Some c ∧ c ≠ 0.

Definition chartPoint (results : Experiment) (e : RatedExperiment)
  : ChartPoint :=
  {| name := model (exp e) +:+ " #" +:+ experiment_id (exp e);
     point_model := model (exp e);
     experimentId := experiment_id (exp e);
     point_accuracy := accuracy (exp e);
     point_cost := default 0 (estimated_cost (exp e)) * Qc_of_Z 1000;
     point_tokens := avg_tokens (exp e) * Qc_of_Z (samples_tested (exp e));
     isCurrent := bool_decide (experiment_id (exp e) = experiment_id results);
     point_samples := samples_tested (exp e) |}.

Definition chartData (allExperiments : list RatedExperiment)
    (results : Experiment) : list ChartPoint :=
  chartPoint results <$> filter (λ e, chartFilter e) allExperiments.


(** [results.sample_results && results.sample_results.length > 0]: whether
    the "Rate Responses" button is rendered. *)
Definition rateButtonVisible (results : Experiment) : bool :=
  match sample_results results with
  | Some l => Nat.ltb 0 (length l)
  | None => false
  end.

(** The counts of the Success/Failure Summary and the box itself: the
    number of successes out of all samples when [failCount > 0], else
    [null]. *)
Definition successCount (l : list SampleResult) : nat :=
  length (filter (λ s, success s) l).

Definition failCount (l : list SampleResult) : nat :=
  length (filter (λ s, negb (success s)) l).

Definition summary (l : list SampleResult) : option (nat * nat) :=
  if Nat.ltb 0 (failCount l) then Some (successCount l, length l)
  else None.

(** What the component returns, as far as the summary goes: the spinner
    while [loading], [null] without [results], else the page with or
    without the "Partial Success" box.  The metrics grid of the same JSX
    evaluates [results.estimated_cost.toFixed(3)], which throws when
    [estimated_cost] is missing: that render shows nothing at all. *)
Inductive page :=
  | Spinner
  | NoResults
  | PageThrows
  | Page (banner : option (nat * nat)).

Definition render (loading : bool) (results : option Experiment) : page :=
  if loading then Spinner
  else
    match results with
    | None => NoResults
    | Some r =>
        let banner :=
          match sample_results r with
          | Some l => summary l
          | None => None
          end in
        match estimated_cost r with
        | Some _ => Page banner
        | None => PageThrows
        end
    end.

End ResultsView.

(** ** ExperimentHistory.jsx: history list, rating save, bulk clear *)

Module ExperimentHistory.

(** An element of [experiments]: the fetched experiment with the two fields
    [fetchExperiments] and [handleSaveRatings] may add. *)
Record HistoryExperiment := {
  exp : Experiment;
  manual_accuracy : option Qc;
  original_accuracy : option Qc
}.

Record state := {
  experiments : list HistoryExperiment;
  manualRatings : Overlay;
  selectedExperiment : option HistoryExperiment;
  showRatingModal : bool;
  isClearing : bool
}.

(** State at mount: [manualRatings] is read from [localStorage] once. *)
Definition initial (ls : Storage) : state :=
  {| experiments := []; manualRatings := parseSaved ls;
     selectedExperiment := None; showRatingModal := false;
     isClearing := false |}.

(** The callback of [exps.map] in [fetchExperiments]. *)
Definition mergeManualRating (manualRatings : Overlay) (e : Experiment)
  : HistoryExperiment :=
  match manualRatings !! experiment_id e with
  | Some mr =>
      {| exp := e; manual_accuracy := Some (ManualRating.accuracy mr);
         original_accuracy := Some (accuracy e) |}
  | None => {| exp := e; manual_accuracy := None; original_accuracy := None |}
  end.

Definition setExperiments (l : list HistoryExperiment) (s : state) : state :=
  {| experiments := l; manualRatings := manualRatings s;
     selectedExperiment := selectedExperiment s;
     showRatingModal := showRatingModal s; isClearing := isClearing s |}.

Definition setManualRatings (r : Overlay) (s : state) : state :=
  {| experiments := experiments s; manualRatings := r;
     selectedExperiment := selectedExperiment s;
     showRatingModal := showRatingModal s; isClearing := isClearing s |}.

Definition setIsClearing (b : bool) (s : state) : state :=
  {| experiments := experiments s; manualRatings := manualRatings s;
     selectedExperiment := selectedExperiment s;
     showRatingModal := showRatingModal s; isClearing := b |}.

Definition fetchExperiments (resp : response (option (list Experiment)))
    (s : state) : state :=
  match resp with
  | Resolved data =>
      let exps := default [] data in
      setExperiments (mergeManualRating (manualRatings s) <$> exps) s
  | Rejected => s
  end.

Definition handleRateExperiment (e : HistoryExperiment) (s : state) : state :=
  {| experiments := experiments s; manualRatings := manualRatings s;
     selectedExperiment := Some e; showRatingModal := true;
     isClearing := isClearing s |}.

(** [handleSaveRatings(ratings, averageAccuracy)]; reading
    [selectedExperiment.experiment_id] throws when nothing is selected
    ([None]), before any state is set. *)
Definition handleSaveRatings (ratings : gmap nat Z) (averageAccuracy : Qc)
    (s : state) : option state :=
  match selectedExperiment s with
  | None => None
  | Some sel =>
      let newRatings :=
        <[experiment_id (exp sel) :=
            {| ManualRating.ratings := ratings;
               ManualRating.accuracy := averageAccuracy |}]> (manualRatings s) in
      let s1 := setManualRatings newRatings s in
      Some (setExperiments
              ((λ e, if bool_decide (experiment_id (exp e)
                                     = experiment_id (exp sel))
                     then {| exp := exp e;
                             manual_accuracy := Some averageAccuracy;
                             original_accuracy := original_accuracy e |}
                     else e) <$> experiments s) s1)
  end.

(** The summary badge of one history row. *)
Inductive badge :=
  | AllSamplesFailed (totalCount : nat)
  | AccuracyBadge (manual_accuracy : Qc)
  | NotRatedYet.

(** [failedCount === totalCount && totalCount > 0], with both counts 0
    when [sample_results] is missing. *)
Definition allFailed (e : Experiment) : bool :=
  let failedCount :=
    match sample_results e with
    | Some l => length (filter (λ s, negb (success s)) l)
    | None => 0%nat
    end in
  let totalCount :=
    match sample_results e with
    | Some l => length l
    | None => 0%nat
    end in
  Nat.eqb failedCount totalCount && Nat.ltb 0 totalCount.

Definition totalCount (e : Experiment) : nat :=
  match sample_results e with
  | Some l => length l
  | None => 0%nat
  end.

Definition accuracyBadge (e : HistoryExperiment) : badge :=
  if allFailed (exp e) then AllSamplesFailed (totalCount (exp e))
  else
    match manual_accuracy e with
    | Some a => if num_truthy a then AccuracyBadge a else NotRatedYet
    | None => NotRatedYet
    end.

(** The browser and the backend as far as the bulk clear touches them. *)
Record world := {
  server_experiments : list Experiment;
  localStorage : Storage;
  history : state
}.

(** Modelled from the spec: the backend handler of
    [DELETE /api/reset?reset_type=experiments] is not among the frontend
    sources.  The spec calls it a bulk clear of the server-held
    experiments: when it succeeds the list is empty and the request
    resolves, when it fails the list is as before and the request rejects. *)
Definition api_resetData (succeeds : bool) (srv : list Experiment)
  : list Experiment * response unit :=
  if succeeds then ([], Resolved ()) else (srv, Rejected).

(** The [useEffect] on [manualRatings]:
    [localStorage.setItem('manualRatings', JSON.stringify(manualRatings))]. *)
Definition persistManualRatings (w : world) : world :=
  {| server_experiments := server_experiments w;
     localStorage := Some (manualRatings (history w));
     history := history w |}.

Inductive toast := ClearedToast | ClearFailedToast.

(** [handleClearExperiments], with the answer to [confirm] and whether the
    server-side delete succeeds; after the handler the effect on the new
    [manualRatings] object has run. *)
Definition handleClearExperiments (confirmed succeeds : bool) (w : world)
  : world * list toast :=
  if negb confirmed then (w, [])
  else
    let s1 := setIsClearing true (history w) in
    let '(srv, resp) := api_resetData succeeds (server_experiments w) in
    match resp with
    | Resolved _ =>
        let s2 := setExperiments [] s1 in
        let ls := (None : Storage) in
        let s3 := setManualRatings ∅ s2 in
        (persistManualRatings
           {| server_experiments := srv; localStorage := ls;
              history := setIsClearing false s3 |},
         [ClearedToast])
    | Rejected =>
        ({| server_experiments := srv; localStorage := localStorage w;
            history := setIsClearing false s1 |},
         [ClearFailedToast])
    end.

(** Saving from the history list followed by the persisting effect. *)
Definition saveAndPersist (ratings : gmap nat Z) (averageAccuracy : Qc)
    (w : world) : option world :=
  s ← handleSaveRatings ratings averageAccuracy (history w);
  Some (persistManualRatings
          {| server_experiments := server_experiments w;
             localStorage := localStorage w; history := s |}).

(** Whether a history row has its Rate button: [sample_results] is there,
    is not empty, and has a success. *)
Definition rateButtonVisible (e : HistoryExperiment) : bool :=
  match sample_results (exp e) with
  | Some l => Nat.ltb 0 (length l) && existsb (λ s, success s) l
  | None => false
  end.

(** The label of sample number [idx] in an expanded row:
    [manualRatings[exp.experiment_id]?.ratings[idx]] when that is truthy,
    shown as percent and stars, else the computed match. *)
Inductive sampleLabel :=
  | StarLabel (percent stars : Z)
  | MatchLabel (accuracy : Qc).

Definition sampleLabelAt (manualRatings : Overlay) (e : Experiment)
    (idx : nat) (sample : SampleResult) : sampleLabel :=
  match manualRatings !! experiment_id e with
  | Some mr =>
      match ManualRating.ratings mr !! idx with
      | Some stars =>
          if (stars =? 0)%Z then MatchLabel (sample_accuracy sample)
          else StarLabel (stars * 20)%Z stars
      | None => MatchLabel (sample_accuracy sample)
      end
  | None => MatchLabel (sample_accuracy sample)
  end.

(** Every row's [manual_accuracy] is the accuracy the component's overlay
    holds for that experiment. *)
Definition rowsAgree (s : state) : Prop :=
  ∀ h, h ∈ experiments s →
       manual_accuracy h
       = ManualRating.accuracy <$> manualRatings s !! experiment_id (exp h).

End ExperimentHistory.

(** ** errorHandler.js: [retryOperation] *)

Module ErrorHandler.

(** What an operation can reject with: [undefined] or [null], or an object
    whose [response?.status] is read by the catch block ([status = None]
    when there is no response or no status).  [TypeError] is the error the
    catch block itself raises when it reads [.response] of a nullish value. *)
Inductive thrown :=
  | Nullish
  | ErrorObject (tag : nat) (status : option Z)
  | TypeError.

Inductive attempt (A : Type) :=
  | Succeeds (v : A)
  | Fails (e : thrown).
Arguments Succeeds {A} v.
Arguments Fails {A} e.

(** An operation, by the outcome of each of its successive calls. *)
Definition operation (A : Type) := nat → attempt A.

(** What the helper does that the outside can see, in order. *)
Inductive io :=
  | Call
  | Wait (ms : Z).

Inductive result (A : Type) :=
  | Returns (v : A)
  | Throws (e : thrown).
Arguments Returns {A} v.
Arguments Throws {A} e.

(** [error.response?.status === 400 || error.response?.status === 401] *)
Definition noRetry (status : option Z) : bool :=
  match status with
  | Some s => (s =? 400)%Z || (s =? 401)%Z
  | None => false
  end.

(** [error.response?.status]: [None] when reading it throws. *)
Definition response_status (e : thrown) : option (option Z) :=
  match e with
  | Nullish => None
  | ErrorObject _ status => Some status
  | TypeError => Some None
  end.

(** The [for] loop from iteration [i] on, with [remaining] iterations left
    ([remaining = maxRetries - i]) and the current [lastError]. *)
Fixpoint retryLoop {A} (op : operation A) (maxRetries : nat) (delay : Z)
    (remaining i : nat) (lastError : thrown) : list io * result A :=
  match remaining with
  | O => ([], Throws lastError)
  | S remaining' =>
      match op i with
      | Succeeds v => ([Call], Returns v)
      | Fails error =>
          match response_status error with
          | None => ([Call], Throws TypeError)
          | Some status =>
              if noRetry status then ([Call], Throws error)
              else
                let wait :=
                  if (Z.of_nat i <? Z.of_nat maxRetries - 1)%Z
                  then [Wait (delay * (Z.of_nat i + 1))%Z] else [] in
                let '(tr, r) :=
                  retryLoop op maxRetries delay remaining' (S i) error in
                (Call :: wait ++ tr, r)
          end
      end
  end.

Definition retryOperation {A} (op : operation A) (maxRetries : nat)
    (delay : Z) : list io * result A :=
  retryLoop op maxRetries delay maxRetries 0 Nullish.

(** [maxRetries = 3, delay = 1000] *)
Definition retryOperation_default {A} (op : operation A) :=
  retryOperation op 3 1000%Z.

Definition is_call (e : io) : bool :=
  match e with Call => true | Wait _ => false end.

Definition calls (tr : list io) : nat :=
  length (filter (λ e, is_call e) tr).

(** A failure the loop goes on after: an object without a 400 or 401. *)
Definition transient (e : thrown) : Prop :=
  ∃ status, response_status e = Some status ∧ noRetry status = false.

(** The attempts and waits of [k + 1] calls in a row, the first being call
    number [i]: after attempt number [i + 1] the wait is
    [delay * (i + 1)]. *)
Fixpoint schedule (delay : Z) (i k : nat) : list io :=
  match k with
  | O => [Call]
  | S k' => Call :: Wait (delay * (Z.of_nat i + 1))%Z :: schedule delay (S i) k'
  end.

(** The time spent waiting in a trace. *)
Definition totalWait (tr : list io) : Z :=
  foldr (λ e acc, match e with Wait ms => ms + acc | Call => acc end)%Z 0%Z tr.

End ErrorHandler.

(** ** PromptTester.jsx: the sample list, manual add and dataset import *)

Module PromptTester.

(** A value [JSON.parse] can return. *)
Inductive json :=
  | JNull
  | JBool (b : bool)
  | JNum (q : Qc)
  | JStr (s : string)
  | JArr (items : list json)
  | JObj (fields : list (string * json)).

(** A JavaScript value read from such a document: [None] is [undefined]. *)
Definition value := option json.

Definition truthy (v : value) : bool :=
  match v with
  | None => false
  | Some JNull => false
  | Some (JBool b) => b
  | Some (JNum q) => num_truthy q
  | Some (JStr s) => negb (String.eqb s "")
  | Some (JArr _) => true
  | Some (JObj _) => true
  end.

(** [a || b] *)
Definition or_else (a b : value) : value := if truthy a then a else b.

(** The member of a parsed object under key [k]: of duplicate members the
    last one counts. *)
Definition member (k : string) (fields : list (string * json)) : value :=
  (λ hit, hit.2.2) <$> list_find (λ kv, kv.1 = k) (reverse fields).

(** [v.k] for the property names the import reads ([qa_pairs],
    [system_context], [samples], [texts], [question], [answer], [text],
    [expected_answer]); none of them exists on arrays, strings, numbers or
    booleans.  The outer [None] is the [TypeError] of reading a property of
    [null] or [undefined]. *)
Definition get (v : value) (k : string) : option value :=
  match v with
  | None => None
  | Some JNull => None
  | Some (JObj fields) => Some (member k fields)
  | Some _ => Some None
  end.

(** [v.map(f)]: a [TypeError] ([None]) unless [v] is an array, and when
    [f] throws on an element. *)
Definition js_map {B} (f : json → option B) (v : value) : option (list B) :=
  match v with
  | Some (JArr items) => mapM f items
  | _ => None
  end.

(** An element of [testSamples]. *)
Record Sample := {
  text : value;
  expected_answer : value
}.

Record state := {
  systemContext : value;
  prompt : string;
  testSamples : list Sample;
  sampleInput : string
}.

(** The [useState] defaults. *)
Definition initial : state :=
  {| systemContext := Some (JStr "");
     prompt := "Answer this question: {text}";
     testSamples :=
       [ {| text := Some (JStr "How do I reset my password?");
            expected_answer := None |};
         {| text := Some (JStr "What are your business hours?");
            expected_answer := None |} ];
     sampleInput := "" |}.

Inductive toast :=
  | MaximumSamplesToast
  | LoadedToast (count : nat)
  | ParseFailedToast
  | NotJsonToast.

(** [String.prototype.trim] on the white space of the ASCII range. *)
Fixpoint trimStart (s : string) : string :=
  match s with
  | String c r => if Ascii.is_space c then trimStart r else s
  | EmptyString => EmptyString
  end.

Definition trim (s : string) : string :=
  String.rev (trimStart (String.rev (trimStart s))).

Definition handleAddSample (s : state) : state * list toast :=
  if negb (String.eqb (trim (sampleInput s)) "")
     && Nat.ltb (length (testSamples s)) 10
  then ({| systemContext := systemContext s; prompt := prompt s;
           testSamples :=
             testSamples s ++
               [ {| text := Some (JStr (trim (sampleInput s)));
                    expected_answer := None |} ];
           sampleInput := "" |}, [])
  else if Nat.leb 10 (length (testSamples s)) then (s, [MaximumSamplesToast])
  else (s, []).

(** The chosen file: its MIME type, its name, and what [JSON.parse] makes
    of its text ([None] when it throws). *)
Record file := {
  type : string;
  file_name : string;
  parsed : option json
}.

(** [name.endsWith(suffix)] *)
Definition endsWith (name suffix : string) : bool :=
  String.prefix (String.rev suffix) (String.rev name).

(** The callbacks of the three [map] calls. *)
Definition qaPairSample (pair : json) : option Sample :=
  question ← get (Some pair) "question";
  answer ← get (Some pair) "answer";
  Some {| text := question; expected_answer := answer |}.

Definition arrayItemSample (item : json) : option Sample :=
  question ← get (Some item) "question";
  itemText ← get (Some item) "text";
  answer ← get (Some item) "answer";
  expected ← get (Some item) "expected_answer";
  Some {| text := or_else (or_else question itemText) (Some item);
          expected_answer :=
            or_else (or_else answer expected) (Some (JStr "")) |}.

Definition textSample (item : json) : option Sample :=
  Some {| text := Some item; expected_answer := None |}.

(** The body of the [try] in [reader.onload] after [JSON.parse]: the new
    state, or [None] when a [TypeError] is thrown.  In each branch whatever
    can throw ([jsonData.qa_pairs] on [null], the [map]) runs before the
    first state setter. *)
Definition loadDataset (jsonData : json) (s : state)
  : option (state * list toast) :=
  qa_pairs ← get (Some jsonData) "qa_pairs";
  if truthy qa_pairs then
    samples ← js_map qaPairSample qa_pairs;
    system_context ← get (Some jsonData) "system_context";
    let s1 :=
      if truthy system_context
      then {| systemContext := system_context;
              prompt := "Answer this question helpfully: {text}";
              testSamples := testSamples s; sampleInput := sampleInput s |}
      else s in
    Some ({| systemContext := systemContext s1; prompt := prompt s1;
             testSamples := samples; sampleInput := sampleInput s1 |},
          [LoadedToast (length samples)])
  else
    samples ←
      match jsonData with
      | JArr _ => js_map arrayItemSample (Some jsonData)
      | _ =>
          samples_member ← get (Some jsonData) "samples";
          texts_member ← get (Some jsonData) "texts";
          if truthy samples_member || truthy texts_member
          then js_map textSample (or_else samples_member texts_member)
          else Some []
      end;
    Some ({| systemContext := systemContext s; prompt := prompt s;
             testSamples := samples; sampleInput := sampleInput s |},
          [LoadedToast (length samples)]).

(** [handleFileUpload] through to the end of [reader.onload]. *)
Definition handleFileUpload (f : option file) (s : state)
  : state * list toast :=
  match f with
  | Some f =>
      if String.eqb (type f) "application/json"
         || endsWith (file_name f) ".json"
      then
        match parsed f with
        | None => (s, [ParseFailedToast])
        | Some jsonData =>
            match loadDataset jsonData s with
            | Some r => r
            | None => (s, [ParseFailedToast])
            end
        end
      else (s, [NotJsonToast])
  | None => (s, [NotJsonToast])
  end.

(** *** The rest of the component: removing a sample, the prompt box, the
    request of a run and the toast that reports its outcome *)

(** [l.filter((_, i) => keep(i))], counting from index [i]. *)
Fixpoint filterIndex {A} (keep : nat → bool) (i : nat) (l : list A) : list A :=
  match l with
  | [] => []
  | x :: r =>
      if keep i then x :: filterIndex keep (S i) r
      else filterIndex keep (S i) r
  end.

(** [setTestSamples(testSamples.filter((_, i) => i !== index))] *)
Definition handleRemoveSample (index : nat) (s : state) : state :=
  {| systemContext := systemContext s; prompt := prompt s;
     testSamples :=
       filterIndex (λ i, negb (Nat.eqb i index)) 0 (testSamples s);
     sampleInput := sampleInput s |}.

(** The separator ["\n\n"]. *)
Definition blankLine : string :=
  String (Ascii.ascii_of_nat 10) (String (Ascii.ascii_of_nat 10) EmptyString).

(** [s.indexOf(needle)]: the first position at which [needle] starts, or
    [None] for -1. *)
Fixpoint indexOf (needle s : string) : option nat :=
  if String.prefix needle s then Some 0%nat
  else
    match s with
    | EmptyString => None
    | String _ r => S <$> indexOf needle r
    end.

(** [s.includes(needle)] *)
Definition includes (s needle : string) : bool :=
  match indexOf needle s with Some _ => true | None => false end.

(** What a template literal makes of a value: a string is itself; for the
    other values [String_of] stands for JavaScript's conversion. *)
Definition interpolate (String_of : json → string) (v : value) : string :=
  match v with
  | Some (JStr t) => t
  | Some j => String_of j
  | None => "undefined"
  end.

(** [systemContext ? `${systemContext}\n\n${prompt}` : prompt], the text of
    the prompt box and the prompt a run sends. *)
Definition finalPrompt (String_of : json → string) (s : state) : string :=
  if truthy (systemContext s)
  then interpolate String_of (systemContext s) +:+ blankLine +:+ prompt s
  else prompt s.

(** The [onChange] of the prompt box, with [e.target.value]. *)
Definition handlePromptChange (value : string) (s : state) : state :=
  if truthy (systemContext s) then
    match indexOf blankLine value with
    | Some contextEnd =>
        {| systemContext := Some (JStr (String.substring 0 contextEnd value));
           prompt :=
             String.substring (contextEnd + 2)
               (String.length value - (contextEnd + 2)) value;
           testSamples := testSamples s; sampleInput := sampleInput s |}
    | None =>
        {| systemContext := Some (JStr value); prompt := prompt s;
           testSamples := testSamples s; sampleInput := sampleInput s |}
    end
  else
    {| systemContext := systemContext s; prompt := value;
       testSamples := testSamples s; sampleInput := sampleInput s |}.

(** The toast [handleRunExperiment] shows once the backend has answered. *)
Inductive runToast :=
  | VerificationRequiredToast
  | AllFailedToast (total : nat)
  | PartialToast (successful total : nat)
  | AllSucceededToast (total : nat).

(** The branches after [onExperimentComplete(response.data)]:
    [sample_results] is the response's, [total] is [testSamples.length]. *)
Definition runOutcomeToast (sample_results : option (list SampleResult))
    (total : nat) : runToast :=
  let successfulSamples :=
    match sample_results with
    | Some l => length (filter (λ r, success r) l)
    | None => 0%nat
    end in
  let hasResults :=
    match sample_results with
    | Some l => Nat.ltb 0 (length l)
    | None => false
    end in
  if Nat.eqb successfulSamples 0 && hasResults then
    let firstError :=
      match sample_results with
      | Some (r :: _) =>
          match error r with
          | Some e => if String.eqb e "" then "" else e
          | None => ""
          end
      | _ => ""
      end in
    if includes firstError "verified"
       || includes firstError "verify organization"
    then VerificationRequiredToast
    else AllFailedToast total
  else if Nat.ltb successfulSamples total
  then PartialToast successfulSamples total
  else AllSucceededToast total.

(** [trimStart] on the characters of a string. *)
Fixpoint dropSpaces (l : list Ascii.ascii) : list Ascii.ascii :=
  match l with
  | c :: r => if Ascii.is_space c then dropSpaces r else l
  | [] => []
  end.

(** A sample whose [text] is a string with something other than white
    space in it. *)
Definition goodText (s : Sample) : Prop :=
  ∃ t, text s = Some (JStr t) ∧ trim t ≠ "".

(** [setSampleInput(e.target.value)] *)
Definition setSampleInput (v : string) (s : state) : state :=
  {| systemContext := systemContext s; prompt := prompt s;
     testSamples := testSamples s; sampleInput := v |}.

(** What the user can do to the form by hand. *)
Inductive edit :=
  | TypeSample (v : string)
  | ClickAdd
  | ClickRemove (index : nat)
  | TypePrompt (v : string).

Definition editStep (s : state) (e : edit) : state :=
  match e with
  | TypeSample v => setSampleInput v s
  | ClickAdd => (handleAddSample s).1
  | ClickRemove index => handleRemoveSample index s
  | TypePrompt v => handlePromptChange v s
  end.

(** [setTestSamples(samples)] *)
Definition withSamples (samples : list Sample) (s : state) : state :=
  {| systemContext := systemContext s; prompt := prompt s;
     testSamples := samples; sampleInput := sampleInput s |}.

End PromptTester.

(** ** errorHandler.js: [handleError] and the validation helpers *)

Module ErrorHandling.

Import PromptTester.

Inductive ErrorType :=
  | API_ERROR
  | VALIDATION_ERROR
  | NETWORK_ERROR
  | AUTH_ERROR
  | RATE_LIMIT
  | UNKNOWN_ERROR.

(** The numeric keys of [errorMessages]. *)
Definition errorMessages (status : Z) : option string :=
  if (status =? 400)%Z then Some "Invalid request. Please check your input."
  else if (status =? 401)%Z
  then Some "Authentication failed. Please check your API keys."
  else if (status =? 403)%Z
  then Some "Access denied. You don't have permission for this action."
  else if (status =? 404)%Z then Some "Resource not found."
  else if (status =? 429)%Z then Some "Too many requests. Please slow down."
  else if (status =? 500)%Z then Some "Server error. Please try again later."
  else if (status =? 502)%Z then Some "Bad gateway. Please try again."
  else if (status =? 503)%Z
  then Some "Service unavailable. Please try again later."
  else None.

Definition DEFAULT : string :=
  "An unexpected error occurred. Please try again.".

Definition NETWORK_ERROR_message : string :=
  "Network error. Please check your connection.".

Definition getErrorTypeFromStatus (status : Z) : ErrorType :=
  if (status =? 401)%Z || (status =? 403)%Z then AUTH_ERROR
  else if (status =? 429)%Z then RATE_LIMIT
  else if (400 <=? status)%Z && (status <? 500)%Z then VALIDATION_ERROR
  else if (500 <=? status)%Z then API_ERROR
  else UNKNOWN_ERROR.

(** A caught value other than [null] and [undefined], by what
    [handleError] reads of it: [error.response] with its [status] and
    [data], whether [error.request] is there, and [error.message]. *)
Record Response := {
  status : Z;
  data : value
}.

Record ErrorValue := {
  response : option Response;
  request : bool;
  message : value
}.

(** [v?.k] for the names read here ([detail], [message], [msg]). *)
Definition optGet (v : value) (k : string) : value :=
  match v with
  | Some (JObj fields) => member k fields
  | _ => None
  end.

Inductive icon := CrossIcon | LockIcon | GlobeIcon | TimerIcon.

(** [showErrorNotification]: the icon of the toast. *)
Definition iconFor (errorType : ErrorType) : icon :=
  match errorType with
  | AUTH_ERROR => LockIcon
  | NETWORK_ERROR => GlobeIcon
  | RATE_LIMIT => TimerIcon
  | _ => CrossIcon
  end.

(** What [handleError] returns (with the error itself as
    [originalError]); [report_message] is a JSON value because the backend's
    [detail.msg] and [message] are passed on as they come. *)
Record Report := {
  type : ErrorType;
  report_message : json;
  details : value
}.

Section Serializers.

(** [JSON.stringify], and [String(v)] for a value that is not a string. *)
Variable JSON_stringify : json → string.
Variable String_of : json → string.

(** How [Array.prototype.join] renders an element. *)
Definition joinItem (j : json) : string :=
  match j with
  | JStr t => t
  | _ => String_of j
  end.

(** [err.msg || err.message || JSON.stringify(err)]; reading a property of
    [null] throws ([None]). *)
Definition detailItemMessage (err : json) : option json :=
  msg ← get (Some err) "msg";
  m ← get (Some err) "message";
  Some (match or_else msg m with
        | Some j => if truthy (or_else msg m) then j
                    else JStr (JSON_stringify err)
        | None => JStr (JSON_stringify err)
        end).

(** The message chosen when the server responded. *)
Definition responseMessage (resp : Response) : option json :=
  let detail := optGet (data resp) "detail" in
  if truthy detail then
    match detail with
    | Some (JStr t) => Some (JStr t)
    | Some (JObj fields) =>
        match member "msg" fields with
        | Some m =>
            if truthy (Some m) then Some m
            else Some (JStr (JSON_stringify (JObj fields)))
        | None => Some (JStr (JSON_stringify (JObj fields)))
        end
    | Some (JArr items) =>
        parts ← mapM detailItemMessage items;
        Some (JStr (String.concat ", " (joinItem <$> parts)))
    | _ => Some (JStr DEFAULT)
    end
  else
    let m := optGet (data resp) "message" in
    match m with
    | Some j =>
        if truthy m then Some j
        else Some (JStr (default DEFAULT (errorMessages (status resp))))
    | None => Some (JStr (default DEFAULT (errorMessages (status resp))))
    end.

(** [handleError(error, context)]: the report and the toast (message and
    icon), or [None] when the handler itself throws a [TypeError]. *)
Definition handleError (error : ErrorValue)
  : option (Report * (json * icon)) :=
  r ←
    match response error with
    | Some resp =>
        m ← responseMessage resp;
        Some {| type := getErrorTypeFromStatus (status resp);
                report_message := m; details := data resp |}
    | None =>
        if request error
        then Some {| type := NETWORK_ERROR;
                     report_message := JStr NETWORK_ERROR_message;
                     details := None |}
        else
          match message error with
          | Some j =>
              Some {| type := UNKNOWN_ERROR;
                      report_message :=
                        if truthy (message error) then j else JStr DEFAULT;
                      details := None |}
          | None =>
              Some {| type := UNKNOWN_ERROR; report_message := JStr DEFAULT;
                      details := None |}
          end
    end;
  Some (r, (report_message r, iconFor (type r))).

End Serializers.

(** What a validation helper does: return [true], throw an [Error] with a
    message, or fail with a [TypeError]. *)
Inductive validation :=
  | Valid
  | Invalid (message : string)
  | ThrowsTypeError.

Definition validateApiKey (apiKey provider : string) : validation :=
  if String.eqb (trim apiKey) "" then Invalid (provider +:+ " API key is required")
  else if String.eqb provider "OpenAI" && negb (String.prefix "sk-" apiKey)
  then Invalid "Invalid OpenAI API key format"
  else if String.eqb provider "Anthropic"
          && negb (String.prefix "sk-ant-" apiKey)
  then Invalid "Invalid Anthropic API key format"
  else Valid.

Definition validatePrompt (prompt : string) : validation :=
  if String.eqb (trim prompt) "" then Invalid "Prompt template cannot be empty"
  else Valid.

(** [!s.text || s.text.trim() === ''];  a truthy [text] that is not a
    string has no [trim], and calling it throws ([None]). *)
Definition sampleInvalid (s : Sample) : option bool :=
  if truthy (text s) then
    match text s with
    | Some (JStr t) => Some (String.eqb (trim t) "")
    | _ => None
    end
  else Some true.

Definition validateSamples (samples : list Sample) : validation :=
  if Nat.eqb (length samples) 0
  then Invalid "Please add at least one test sample"
  else
    match mapM sampleInvalid samples with
    | None => ThrowsTypeError
    | Some flags =>
        if existsb (λ b, b) flags then Invalid "Some samples have empty text"
        else Valid
    end.

(** The body of [api.runExperiment]'s argument. *)
Record RunRequest := {
  request_prompt : string;
  request_model : string;
  test_samples : list Sample
}.

(** [handleRunExperiment] up to the request: [validatePrompt(prompt)],
    [validateSamples(testSamples)], then the one call of
    [api.runExperiment]; a failed validation leaves no request. *)
Definition prepareRun (String_of : json → string) (model : string)
    (s : state) : validation * option RunRequest :=
  match validatePrompt (prompt s) with
  | Valid =>
      match validateSamples (testSamples s) with
      | Valid =>
          (Valid,
           Some {| request_prompt := finalPrompt String_of s;
                   request_model := model;
                   test_samples := testSamples s |})
      | failure => (failure, None)
      end
  | failure => (failure, None)
  end.

(** The two conversions left open above, for examples. *)
Definition noText : PromptTester.json → string := λ _, "".

End ErrorHandling.

(** ** ApiKeySettings.jsx and api.js: the stored keys and the request
    headers *)

Module ApiKeySettings.

(** The three keys the dialog edits. *)
Record ApiKeys := {
  openai : string;
  anthropic : string;
  together : string
}.

(** [localStorage] as far as the keys go: item name to stored text. *)
Abbreviation KeyStorage := (gmap string string).

(** [localStorage.getItem(name) || ''] for the three items. *)
Definition loadKeys (ls : KeyStorage) : ApiKeys :=
  {| openai := default "" (ls !! "openai_api_key");
     anthropic := default "" (ls !! "anthropic_api_key");
     together := default "" (ls !! "together_api_key") |}.

Definition handleSaveKeys (apiKeys : ApiKeys) (ls : KeyStorage) : KeyStorage :=
  <["together_api_key" := together apiKeys]>
    (<["anthropic_api_key" := anthropic apiKeys]>
       (<["openai_api_key" := openai apiKeys]> ls)).

(** The request interceptor of [api.js]: a header for each stored key that
    is not empty. *)
Definition addKeyHeaders (ls : KeyStorage) (headers : gmap string string)
  : gmap string string :=
  let add (item header : string) (h : gmap string string) :=
    match ls !! item with
    | Some key => if String.eqb key "" then h else <[header := key]> h
    | None => h
    end in
  add "together_api_key" "X-Together-API-Key"
    (add "anthropic_api_key" "X-Anthropic-API-Key"
       (add "openai_api_key" "X-OpenAI-API-Key" headers)).

(** A character of a masked key: one of the key's own, or a bullet. *)
Inductive glyph :=
  | Shown (c : Ascii.ascii)
  | Bullet.

Definition glyphs (s : string) : list glyph :=
  Shown <$> String.list_ascii_of_string s.

(** [maskKey(key)] *)
Definition maskKey (key : string) : list glyph :=
  if String.eqb key "" then []
  else if Nat.leb (String.length key) 8 then replicate 8 Bullet
  else
    glyphs (String.substring 0 4 key)
    ++ replicate 4 Bullet
    ++ glyphs (String.substring (String.length key - 4) 4 key).

Definition isShown (g : glyph) : bool :=
  match g with Shown _ => true | Bullet => false end.

End ApiKeySettings.

(** ** Concrete data used by the examples below *)

Module Fixtures.

Definition okSample : SampleResult :=
  {| input := "What is 2+2?"; output := Some "4"; success := true;
     error := None; tokens := 12%Z; cost := Q2Qc (1 # 1000);
     sample_accuracy := Qc_of_Z 90 |}.

Definition failedSample : SampleResult :=
  {| input := "What is 2+2?"; output := None; success := false;
     error := Some "timeout"; tokens := 0%Z; cost := 0;
     sample_accuracy := 0 |}.

Definition experiment (id : string) (acc : Qc) (c : option Qc)
    (rs : option (list SampleResult)) : Experiment :=
  {| experiment_id := id; prompt := "Answer: {text}";
     model := "gpt-3.5-turbo"; samples_tested := 1%Z;
     avg_tokens := Qc_of_Z 12; estimated_cost := c; sample_results := rs;
     accuracy := acc |}.

(** [{id:1, accuracy:0, cost:0.01}] and [{id:2, accuracy:80, cost:0.02}] *)
Definition exp1 : Experiment :=
  experiment "1" (Qc_of_Z 0) (Some (Q2Qc (1 # 100))) (Some [okSample]).
Definition exp2 : Experiment :=
  experiment "2" (Qc_of_Z 80) (Some (Q2Qc (2 # 100))) (Some [okSample]).

(** An experiment with computed accuracy 50 and one successful sample. *)
Definition exp50 : Experiment :=
  experiment "7" (Qc_of_Z 50) (Some (Q2Qc (1 # 100))) (Some [okSample]).

(** A saved rating of four stars for its only sample: accuracy 80. *)
Definition rating80 : ManualRating.t :=
  {| ManualRating.ratings := {[ 0%nat := 4%Z ]};
     ManualRating.accuracy := Qc_of_Z 80 |}.

Definition rating100 : ManualRating.t :=
  {| ManualRating.ratings := {[ 0%nat := 5%Z ]};
     ManualRating.accuracy := Qc_of_Z 100 |}.

(** An operation that fails twice with a 503 and then succeeds; one that
    always fails with a 401; one that always fails with a 500. *)
Definition flakyOp : ErrorHandler.operation string :=
  λ k, if Nat.ltb k 2
       then ErrorHandler.Fails (ErrorHandler.ErrorObject k (Some 503%Z))
       else ErrorHandler.Succeeds "ok".

Definition unauthorizedOp : ErrorHandler.operation string :=
  λ k, ErrorHandler.Fails (ErrorHandler.ErrorObject k (Some 401%Z)).

Definition brokenOp : ErrorHandler.operation string :=
  λ k, ErrorHandler.Fails (ErrorHandler.ErrorObject k (Some 500%Z)).

(** Dataset files: [{"foo": 1}], which has none of the three shapes; an
    array of eleven strings; the Q&A document of the usage guide. *)
Definition jsonFile (doc : option PromptTester.json) : PromptTester.file :=
  {| PromptTester.type := "application/json";
     PromptTester.file_name := "dataset.json";
     PromptTester.parsed := doc |}.

Definition unrecognizedDoc : PromptTester.json :=
  PromptTester.JObj [("foo", PromptTester.JNum (Qc_of_Z 1))].

Definition elevenTexts : PromptTester.json :=
  PromptTester.JArr
    ((λ t, PromptTester.JStr t) <$>
       ["q1"; "q2"; "q3"; "q4"; "q5"; "q6"; "q7"; "q8"; "q9"; "q10"; "q11"]).

Definition qaDoc : PromptTester.json :=
  PromptTester.JObj
    [("qa_pairs",
      PromptTester.JArr
        [PromptTester.JObj
           [("question", PromptTester.JStr "What is the capital of France?");
            ("answer", PromptTester.JStr "Paris")];
         PromptTester.JObj
           [("question", PromptTester.JStr "What is 2+2?");
            ("answer", PromptTester.JStr "4")]]);
     ("system_context", PromptTester.JStr "You are a helpful assistant.")].

(** Sample results of a run with three successes and one failure, of a run
    where everything failed, and rating sessions over the first. *)
Definition mixedRun : option (list SampleResult) :=
  Some [okSample; failedSample; okSample; okSample].

Definition failedRun : option (list SampleResult) :=
  Some [failedSample; failedSample].

Definition rateAll (a b c : RatingModal.star) : list RatingModal.event :=
  [ RatingModal.Open mixedRun;
    RatingModal.ClickStar a; RatingModal.TimerFires 0;
    RatingModal.ClickStar b; RatingModal.TimerFires 0;
    RatingModal.ClickStar c ].

Definition rateTwo : list RatingModal.event :=
  [ RatingModal.Open mixedRun;
    RatingModal.ClickStar RatingModal.Star4; RatingModal.ClickNext;
    RatingModal.ClickNext; RatingModal.ClickStar RatingModal.Star2 ].

(** The second of three samples on screen, Cancel, and the modal opened
    again on a run with one success. *)
Definition staleReopen : list RatingModal.event :=
  [ RatingModal.Open mixedRun; RatingModal.ClickNext;
    RatingModal.ClickClose; RatingModal.Open (Some [okSample]) ].

(** A star on the first of three samples, Cancel, and the modal opened
    again on a run with one success before that star's timer fires. *)
Definition lateTimer : list RatingModal.event :=
  [ RatingModal.Open mixedRun; RatingModal.ClickStar RatingModal.Star3;
    RatingModal.ClickClose; RatingModal.Open (Some [okSample]);
    RatingModal.TimerFires 0 ].

(** A run whose first sample failed and whose second succeeded, with the
    rating of five stars that the workflow files under index 0. *)
Definition failedThenOk : Experiment :=
  experiment "9" (Qc_of_Z 0) (Some (Q2Qc (1 # 100)))
    (Some [failedSample; okSample]).

Definition fiveStars : Overlay :=
  {[ "9" := {| ManualRating.ratings := {[ 0%nat := 5%Z ]};
               ManualRating.accuracy := Qc_of_Z 100 |} ]}.

(** A rejected request with status 401 and a [detail] from the backend,
    and what [handleError] makes of it. *)
Definition unauthorized : ErrorHandling.ErrorValue :=
  {| ErrorHandling.response :=
       Some {| ErrorHandling.status := 401%Z;
               ErrorHandling.data :=
                 Some (PromptTester.JObj
                         [("detail", PromptTester.JStr "Invalid API key")]) |};
     ErrorHandling.request := true;
     ErrorHandling.message :=
       Some (PromptTester.JStr "Request failed with status code 401") |}.

Definition unauthorizedReport : ErrorHandling.Report :=
  {| ErrorHandling.type := ErrorHandling.AUTH_ERROR;
     ErrorHandling.report_message := PromptTester.JStr "Invalid API key";
     ErrorHandling.details :=
       Some (PromptTester.JObj
               [("detail", PromptTester.JStr "Invalid API key")]) |}.

(** The form after the Q&A document of the usage guide was imported. *)
Definition afterQaImport : PromptTester.state :=
  (PromptTester.handleFileUpload (Some (jsonFile (Some qaDoc)))
     PromptTester.initial).1.

(** A history list showing one experiment with the mixed run, selected
    for rating. *)
Definition mixedRow : ExperimentHistory.HistoryExperiment :=
  {| ExperimentHistory.exp :=
       experiment "5" (Qc_of_Z 0) (Some (Q2Qc (1 # 100))) mixedRun;
     ExperimentHistory.manual_accuracy := None;
     ExperimentHistory.original_accuracy := None |}.

Definition historyRating : ExperimentHistory.state :=
  {| ExperimentHistory.experiments := [mixedRow];
     ExperimentHistory.manualRatings := ∅;
     ExperimentHistory.selectedExperiment := Some mixedRow;
     ExperimentHistory.showRatingModal := true;
     ExperimentHistory.isClearing := false |}.

Definition storedKeys : ApiKeySettings.ApiKeys :=
  {| ApiKeySettings.openai := "sk-test-0123456789";
     ApiKeySettings.anthropic := "";
     ApiKeySettings.together := "" |}.

End Fixtures.

(** * Properties *)

(** ** Numbers *)

Lemma num_truthy_spec (q : Qc) : num_truthy q = true ↔ q ≠ 0.
Proof. unfold num_truthy. by rewrite negb_true_iff, bool_decide_eq_false. Qed.


Lemma Qclt_irrefl (x : Qc) : ¬ x < x.
Proof. intros H. by apply (Qclt_not_eq x x). Qed.

(** ** The manual-rating overlay *)

Section Overlay.

Import ResultsView ExperimentHistory.


Lemma mergeRating_id (R : Overlay) (E : Experiment) :
  experiment_id (ResultsView.exp (mergeRating R E)) = experiment_id E.
Proof. unfold mergeRating. by destruct (R !! _). Qed.

Lemma mergeManualRating_exp (R : Overlay) (E : Experiment) :
  ExperimentHistory.exp (mergeManualRating R E) = E.
Proof. unfold mergeManualRating. by destruct (R !! _). Qed.

Lemma mergeManualRating_manual (R : Overlay) (E : Experiment) :
  manual_accuracy (mergeManualRating R E)
  = ManualRating.accuracy <$> R !! experiment_id E.
Proof. unfold mergeManualRating. by destruct (R !! _). Qed.

End Overlay.

Section AccuracyPrecedence.

Import ResultsView ExperimentHistory Fixtures.








End AccuracyPrecedence.

(** ** The comparison chart *)

Section ComparisonChart.

Import ResultsView ExperimentHistory Fixtures.

Lemma chartFilter_spec (e : RatedExperiment) :
  chartFilter e = true ↔ evaluated e.
Proof.
  unfold chartFilter, evaluated.
  rewrite andb_true_iff, bool_decide_eq_true.
  destruct (estimated_cost (ResultsView.exp e)) as [c|].
  - rewrite num_truthy_spec. split.
    + intros [? ?]. eauto.
    + intros [? (c' & [= <-] & ?)]. done.
  - split; [intros [_ [=]] | intros [_ (c & [=] & _)]].
Qed.

#[local] Instance evaluated_dec (e : RatedExperiment) : Decision (evaluated e).
Proof.
  refine (cast_if (decide (chartFilter e = true)));
    abstract (by rewrite <- chartFilter_spec).
Defined.

Lemma history_keeps_all (exps : list Experiment) (s : ExperimentHistory.state) :
  (λ h, experiment_id (ExperimentHistory.exp h)) <$>
    experiments (fetchExperiments (Resolved (Some exps)) s)
  = experiment_id <$> exps.
Proof.
  cbn. rewrite <- list_fmap_compose. apply list_fmap_ext.
  intros _ e _. cbn. by rewrite mergeManualRating_exp.
Qed.

(** C5.  Whatever the merged list [allExperiments] is, the chart data
    consists of exactly its experiments with an accuracy above 0 and an
    [estimated_cost] that is present and not 0, in their order, one point
    each.  For the two experiments of the specification only id 2 gets a
    point, and the history list fetched from the same answer keeps both. *)
Theorem chartData_exactly_evaluated
    (allExperiments : list RatedExperiment) (results : Experiment) :
  chartData allExperiments results
    = chartPoint results <$> filter evaluated allExperiments
  ∧ experimentId <$> chartData allExperiments results
    = (λ e, experiment_id (ResultsView.exp e)) <$>
        filter evaluated allExperiments
  ∧ experimentId <$>
      chartData
        (ResultsView.allExperiments
           (fetchAllExperiments (Resolved (Some [exp1; exp2])) None
              ResultsView.initial)) exp2
    = ["2"]
  ∧ (λ h, experiment_id (ExperimentHistory.exp h)) <$>
      experiments
        (fetchExperiments (Resolved (Some [exp1; exp2]))
           (ExperimentHistory.initial None))
    = ["1"; "2"].
Proof.
  assert (chartData allExperiments results
          = chartPoint results <$> filter evaluated allExperiments) as Heq.
  { unfold chartData. f_equal. apply list_filter_iff.
    intros e. rewrite <- chartFilter_spec. apply Is_true_true. }
  split_and!.
  - exact Heq.
  - rewrite Heq, <- list_fmap_compose. done.
  - vm_compute. reflexivity.
  - apply history_keeps_all.
Qed.

End ComparisonChart.

(** ** Bulk clear and rating save in the history list *)

Section HistoryStore.

Import ResultsView ExperimentHistory Fixtures.

(** C3.  Once confirmed, a clear whose server-side delete succeeds leaves
    no experiment on the server, none in the list on screen, and no entry
    in the overlay, neither in the component nor in [localStorage]; a clear
    whose server-side delete fails leaves all four as they were; a clear
    that is not confirmed does nothing at all. *)
Theorem handleClearExperiments_all_or_nothing (w : world) :
  (let w' := (handleClearExperiments true true w).1 in
   server_experiments w' = [] ∧
   experiments (history w') = [] ∧
   manualRatings (history w') = ∅ ∧
   parseSaved (localStorage w') = ∅)
  ∧ (∀ confirmed,
       let w' := (handleClearExperiments confirmed false w).1 in
       server_experiments w' = server_experiments w ∧
       experiments (history w') = experiments (history w) ∧
       manualRatings (history w') = manualRatings (history w) ∧
       localStorage w' = localStorage w)
  ∧ (∀ succeeds, handleClearExperiments false succeeds w = (w, [])).
Proof.
  split_and!.
  - done.
  - intros [|]; done.
  - done.
Qed.

(** C10.  Saving a rating for the experiment with id [X] from the
    single-result view leaves the stored entry of every other id [Y] as
    it was and makes the entry of [X] the new rating.  Saving from the
    history list does not keep the stored entries: its effect stores the
    component's own copy of the overlay with the new entry, so after the
    save the stored entry of [Y] is the one of the copy, and an entry that
    [localStorage] held and the copy lacks is gone.  So it goes when
    experiment 7 is rated in the single-result view after the history
    list mounted, and experiment 2 is then rated in the history list: the
    stored rating of experiment 7 is lost. *)
Theorem handleSaveRatings_frame :
  (∀ X Y r a results resp ls s,
     X ≠ Y → experiment_id results = X →
     let ls' := (ResultsView.handleSaveRatings results r a resp ls s).1 in
     parseSaved ls' !! Y = parseSaved ls !! Y ∧
     parseSaved ls' !! X
     = Some {| ManualRating.ratings := r; ManualRating.accuracy := a |})
  ∧ (∀ X Y r a w sel,
       X ≠ Y → selectedExperiment (history w) = Some sel →
       experiment_id (ExperimentHistory.exp sel) = X →
       ∃ w', saveAndPersist r a w = Some w' ∧
         manualRatings (history w') !! Y = manualRatings (history w) !! Y ∧
         parseSaved (localStorage w') !! Y = manualRatings (history w) !! Y ∧
         parseSaved (localStorage w') !! X
         = Some {| ManualRating.ratings := r; ManualRating.accuracy := a |})
  ∧ (∀ X Y r a w sel mr,
       X ≠ Y → selectedExperiment (history w) = Some sel →
       experiment_id (ExperimentHistory.exp sel) = X →
       parseSaved (localStorage w) !! Y = Some mr →
       manualRatings (history w) !! Y = None →
       ∃ w', saveAndPersist r a w = Some w' ∧
             parseSaved (localStorage w') !! Y = None)
  ∧ (let mounted :=
       fetchExperiments (Resolved (Some [exp50; exp2]))
         (ExperimentHistory.initial None) in
     let ls1 :=
       (ResultsView.handleSaveRatings exp50 {[ 0%nat := 4%Z ]} (Qc_of_Z 80)
          Rejected None ResultsView.initial).1 in
     let w := {| server_experiments := [exp50; exp2]; localStorage := ls1;
                 history :=
                   handleRateExperiment (mergeManualRating ∅ exp2) mounted |} in
     parseSaved (localStorage w) !! "7" = Some rating80
     ∧ ∃ w', saveAndPersist {[ 0%nat := 5%Z ]} (Qc_of_Z 100) w = Some w'
             ∧ parseSaved (localStorage w') !! "7" = None
             ∧ parseSaved (localStorage w') !! "2" = Some rating100).
Proof.
  assert (∀ X Y r a w sel,
            X ≠ Y → selectedExperiment (history w) = Some sel →
            experiment_id (ExperimentHistory.exp sel) = X →
            ∃ w', saveAndPersist r a w = Some w' ∧
              manualRatings (history w') !! Y = manualRatings (history w) !! Y ∧
              parseSaved (localStorage w') !! Y = manualRatings (history w) !! Y ∧
              parseSaved (localStorage w') !! X
              = Some {| ManualRating.ratings := r;
                        ManualRating.accuracy := a |}) as Hhist.
  { intros X Y r a w sel Hne Hsel <-.
    unfold saveAndPersist, ExperimentHistory.handleSaveRatings.
    rewrite Hsel. cbn. eexists. split; [reflexivity|]. cbn.
    by rewrite lookup_insert_ne, lookup_insert_eq. }
  split_and!.
  - intros X Y r a results resp ls s Hne <-. cbn.
    by rewrite lookup_insert_ne, lookup_insert_eq.
  - exact Hhist.
  - intros X Y r a w sel mr Hne Hsel HX _ Hcopy.
    destruct (Hhist X Y r a w sel Hne Hsel HX) as (w' & Hsave & _ & HY & _).
    exists w'. split; [done|]. by rewrite HY.
  - split; [reflexivity|]. eexists. split_and!; reflexivity.
Qed.

(** The history list keeps its own copy of the overlay, read from
    [localStorage] when it mounts, and its effect writes that copy back
    whole.  An entry the single-result view stored after the mount is
    therefore not in the copy, and the next save from the history list
    replaces the stored map by the copy plus the new entry. *)
Example history_copy_overrides_storage :
  let ls1 :=
    (ResultsView.handleSaveRatings exp50 {[ 0%nat := 4%Z ]} (Qc_of_Z 80)
       Rejected None ResultsView.initial).1 in
  let h :=
    handleRateExperiment (mergeManualRating ∅ exp2)
      (ExperimentHistory.initial None) in
  let w := {| server_experiments := [exp50; exp2]; localStorage := ls1;
              history := h |} in
  parseSaved ls1 !! "7" = Some rating80 ∧
  (λ w', parseSaved (localStorage w') !! "7") <$>
    saveAndPersist {[ 0%nat := 5%Z ]} (Qc_of_Z 100) w = Some None.
Proof. split; reflexivity. Qed.

End HistoryStore.

(** ** The retry helper *)

Section Retry.

Import ErrorHandler Fixtures.

Context {A : Type}.
Implicit Types (op : operation A) (delay : Z) (e : thrown).

Lemma calls_cons_call (tr : list io) : calls (Call :: tr) = S (calls tr).
Proof. reflexivity. Qed.

Lemma calls_cons_wait (ms : Z) (tr : list io) : calls (Wait ms :: tr) = calls tr.
Proof. reflexivity. Qed.

Lemma calls_schedule delay (i k : nat) : calls (schedule delay i k) = S k.
Proof.
  revert i. induction k as [|k IH]; intros i; [done|].
  cbn [schedule]. by rewrite calls_cons_call, calls_cons_wait, IH.
Qed.

(** One unfolding of the loop at a failure it goes on after. *)
Lemma retryLoop_transient op (n : nat) delay (remaining i : nat) e0 e :
  op i = Fails e → transient e →
  retryLoop op n delay (S remaining) i e0
  = (Call ::
       (if (Z.of_nat i <? Z.of_nat n - 1)%Z
        then [Wait (delay * (Z.of_nat i + 1))%Z] else [])
       ++ (retryLoop op n delay remaining (S i) e).1,
     (retryLoop op n delay remaining (S i) e).2).
Proof.
  intros Hop (status & Hst & Hno). cbn [retryLoop].
  rewrite Hop, Hst, Hno. by destruct (retryLoop _ _ _ remaining _ _).
Qed.

(** The loop stops on its own: with [remaining] iterations left it makes
    between one and [remaining] calls, and between two calls it waits
    [delay] times the number of the attempt just made. *)
Lemma retryLoop_schedule op (n : nat) delay (remaining i : nat) e0 :
  (S remaining + i = n)%nat →
  ∃ k, (k ≤ remaining)%nat ∧
       (retryLoop op n delay (S remaining) i e0).1 = schedule delay i k.
Proof.
  revert i e0. induction remaining as [|r IH]; intros i e0 Hn.
  - exists 0%nat. split; [lia|]. cbn [retryLoop].
    destruct (op i) as [v|e]; [done|].
    destruct (response_status e) as [status|]; [|done].
    destruct (noRetry status); [done|].
    destruct (Z.ltb_spec (Z.of_nat i) (Z.of_nat n - 1)); [lia|done].
  - destruct (op i) as [v|e] eqn:Hop.
    { exists 0%nat. split; [lia|]. cbn [retryLoop]. by rewrite Hop. }
    destruct (response_status e) as [status|] eqn:Hst.
    2:{ exists 0%nat. split; [lia|]. cbn [retryLoop]. by rewrite Hop, Hst. }
    destruct (noRetry status) eqn:Hno.
    { exists 0%nat. split; [lia|]. cbn [retryLoop]. by rewrite Hop, Hst, Hno. }
    destruct (IH (S i) e ltac:(lia)) as (k & Hk & Htr).
    exists (S k). split; [lia|].
    rewrite (retryLoop_transient _ _ _ _ _ _ e) by (done || by exists status).
    cbn [fst]. rewrite Htr.
    destruct (Z.ltb_spec (Z.of_nat i) (Z.of_nat n - 1)); [done|lia].
Qed.

Lemma retryOperation_calls_le op (maxRetries : nat) delay :
  (calls (retryOperation op maxRetries delay).1 ≤ maxRetries)%nat.
Proof.
  unfold retryOperation. destruct maxRetries as [|r]; [done|].
  destruct (retryLoop_schedule op (S r) delay r 0 Nullish ltac:(lia))
    as (k & Hk & ->).
  rewrite calls_schedule. lia.
Qed.

(** When every attempt fails with an error the loop goes on after, all
    the iterations run and the error of the last attempt is thrown. *)
Lemma retryLoop_all_transient op (n : nat) delay (errs : nat → thrown)
    (remaining i : nat) e0 :
  (S remaining + i = n)%nat →
  (∀ j, (j < n)%nat → op j = Fails (errs j) ∧ transient (errs j)) →
  retryLoop op n delay (S remaining) i e0
  = (schedule delay i remaining, Throws (errs (n - 1)%nat)).
Proof.
  revert i e0. induction remaining as [|r IH]; intros i e0 Hn Hop.
  - destruct (Hop i ltac:(lia)) as [Hi Ht].
    rewrite (retryLoop_transient _ _ _ _ _ _ _ Hi Ht). cbn.
    destruct (Z.ltb_spec (Z.of_nat i) (Z.of_nat n - 1)); [lia|].
    by replace (n - 1)%nat with i by lia.
  - destruct (Hop i ltac:(lia)) as [Hi Ht].
    rewrite (retryLoop_transient _ _ _ _ _ _ _ Hi Ht).
    rewrite (IH (S i) (errs i)) by (lia || done). cbn.
    destruct (Z.ltb_spec (Z.of_nat i) (Z.of_nat n - 1)); [done|lia].
Qed.

(** When every attempt fails with an error object, the error thrown is
    that of the last attempt made. *)
Lemma retryLoop_all_fail op (n : nat) delay (errs : nat → thrown)
    (remaining i : nat) e0 :
  (S remaining + i = n)%nat →
  (∀ j, (j < n)%nat → op j = Fails (errs j)) →
  (∀ j, (j < n)%nat → is_Some (response_status (errs j))) →
  ∃ k, (k ≤ remaining)%nat ∧
       retryLoop op n delay (S remaining) i e0
       = (schedule delay i k, Throws (errs (i + k)%nat)).
Proof.
  revert i e0. induction remaining as [|r IH]; intros i e0 Hn Hop Hobj;
    destruct (Hobj i ltac:(lia)) as [status Hst];
    destruct (noRetry status) eqn:Hno.
  - exists 0%nat. split; [lia|]. cbn [retryLoop].
    rewrite (Hop i), Hst, Hno, Nat.add_0_r by lia. done.
  - exists 0%nat. split; [lia|].
    rewrite (retryLoop_transient _ _ _ _ _ _ (errs i))
      by (by apply Hop; lia) || by exists status.
    cbn. destruct (Z.ltb_spec (Z.of_nat i) (Z.of_nat n - 1)); [lia|].
    by rewrite Nat.add_0_r.
  - exists 0%nat. split; [lia|]. cbn [retryLoop].
    rewrite (Hop i), Hst, Hno, Nat.add_0_r by lia. done.
  - destruct (IH (S i) (errs i) ltac:(lia) Hop Hobj) as (k & Hk & Heq).
    exists (S k). split; [lia|].
    rewrite (retryLoop_transient _ _ _ _ _ _ (errs i))
      by (by apply Hop; lia) || by exists status.
    rewrite Heq. cbn.
    destruct (Z.ltb_spec (Z.of_nat i) (Z.of_nat n - 1)); [|lia].
    by replace (i + S k)%nat with (S (i + k)) by lia.
Qed.

(** C4.  With [maxRetries = 3] the helper calls the operation at most 3
    times, and its calls and waits follow the schedule: after attempt
    number [m] that failed it waits [delay * m] before the next.  If the
    operation fails twice (not with a 400 or 401) and then succeeds, the
    third attempt's value is returned.  If the first failure carries a 400
    or a 401, that error is rethrown after this one call, with no wait.  If
    all attempts fail, the error of the last attempt made is thrown; when
    none of them carries a 400 or 401 that is the third. *)
Theorem retryOperation_three_attempts op delay :
  let out := retryOperation op 3 delay in
  (calls out.1 ≤ 3)%nat
  ∧ (∃ k, (k < 3)%nat ∧ out.1 = schedule delay 0 k)
  ∧ (∀ e0 e1 v,
       op 0%nat = Fails e0 → transient e0 →
       op 1%nat = Fails e1 → transient e1 →
       op 2%nat = Succeeds v →
       out = ([Call; Wait (delay * 1); Call; Wait (delay * 2); Call],
              Returns v))
  ∧ (∀ tag status,
       op 0%nat = Fails (ErrorObject tag (Some status)) →
       status = 400%Z ∨ status = 401%Z →
       out = ([Call], Throws (ErrorObject tag (Some status))))
  ∧ (∀ errs,
       (∀ j, (j < 3)%nat → op j = Fails (errs j)) →
       (∀ j, (j < 3)%nat → is_Some (response_status (errs j))) →
       ∃ k, (k < 3)%nat ∧ out = (schedule delay 0 k, Throws (errs k)))
  ∧ (∀ errs,
       (∀ j, (j < 3)%nat → op j = Fails (errs j) ∧ transient (errs j)) →
       out = ([Call; Wait (delay * 1); Call; Wait (delay * 2); Call],
              Throws (errs 2%nat))).
Proof.
  intros out. subst out. unfold retryOperation. split_and!.
  - apply (retryOperation_calls_le op 3 delay).
  - destruct (retryLoop_schedule op 3 delay 2 0 Nullish eq_refl)
      as (k & Hk & Htr).
    exists k. split; [lia|done].
  - intros e0 e1 v H0 T0 H1 T1 H2.
    rewrite (retryLoop_transient _ _ _ _ _ _ _ H0 T0).
    rewrite (retryLoop_transient _ _ _ _ _ _ _ H1 T1).
    cbn. by rewrite H2.
  - intros tag status H0 Hst. cbn. rewrite H0. cbn.
    by destruct Hst as [-> | ->].
  - intros errs Hop Hobj.
    destruct (retryLoop_all_fail op 3 delay errs 2 0 Nullish eq_refl Hop Hobj)
      as (k & Hk & Heq).
    exists k. split; [lia|done].
  - intros errs Hop.
    by rewrite (retryLoop_all_transient op 3 delay errs 2 0 Nullish eq_refl Hop).
Qed.

End Retry.

Section RetryExamples.

Import ErrorHandler Fixtures.

Lemma transient_status (tag : nat) (status : Z) :
  status ≠ 400%Z → status ≠ 401%Z → transient (ErrorObject tag (Some status)).
Proof.
  intros H0 H1. exists (Some status). split; [done|]. cbn.
  apply orb_false_iff. split; by apply Z.eqb_neq.
Qed.

(** The witness for C4: an operation that fails twice with a 503 and then
    succeeds, retried with the default bound and delay. *)
Lemma retryOperation_three_attempts_witness :
  retryOperation_default flakyOp
  = ([Call; Wait 1000; Call; Wait 2000; Call], Returns "ok").
Proof.
  refine (proj1 (proj2 (proj2 (retryOperation_three_attempts flakyOp 1000%Z)))
            (ErrorObject 0 (Some 503%Z)) (ErrorObject 1 (Some 503%Z)) "ok"
            _ _ _ _ _).
  - reflexivity.
  - apply transient_status; lia.
  - reflexivity.
  - apply transient_status; lia.
  - reflexivity.
Defined.

Example retry_unauthorized :
  retryOperation_default unauthorizedOp
  = ([Call], Throws (ErrorObject 0 (Some 401%Z))).
Proof. reflexivity. Qed.

Example retry_broken :
  retryOperation_default brokenOp
  = ([Call; Wait 1000; Call; Wait 2000; Call],
     Throws (ErrorObject 2 (Some 500%Z))).
Proof. reflexivity. Qed.

End RetryExamples.

(** ** The sample list *)

Section SampleList.

Import PromptTester Fixtures.

Local Arguments get : simpl never.
Local Arguments js_map : simpl never.

Lemma handleAddSample_length (s : state) :
  (length (testSamples (handleAddSample s).1)
   ≤ Nat.max 10 (length (testSamples s)))%nat.
Proof.
  unfold handleAddSample.
  destruct (negb _);
    destruct (Nat.ltb_spec (length (testSamples s)) 10);
    destruct (Nat.leb_spec 10 (length (testSamples s)));
    cbn; rewrite ?length_app; cbn; lia.
Qed.

Lemma handleAddSample_full (s : state) :
  (10 ≤ length (testSamples s))%nat →
  handleAddSample s = (s, [MaximumSamplesToast]).
Proof.
  intros Hfull. unfold handleAddSample.
  destruct (Nat.ltb_spec (length (testSamples s)) 10); [lia|].
  rewrite andb_false_r.
  by destruct (Nat.leb_spec 10 (length (testSamples s))); [|lia].
Qed.

(** Whatever the file, the import either reports a load and shows as many
    samples as it reports, or reports an error and changes nothing. *)
Lemma handleFileUpload_outcomes (f : option file) (s : state) :
  let out := handleFileUpload f s in
  out.2 = [LoadedToast (length (testSamples out.1))]
  ∨ (out.1 = s ∧ (out.2 = [ParseFailedToast] ∨ out.2 = [NotJsonToast])).
Proof.
  cbn. unfold handleFileUpload.
  destruct f as [f|]; [|right; auto].
  destruct (_ || _); [|right; auto].
  destruct (parsed f) as [jsonData|]; [|right; auto].
  destruct (loadDataset jsonData s) as [[s' ts]|] eqn:Hload; [|right; auto].
  left. unfold loadDataset in Hload.
  destruct (get (Some jsonData) "qa_pairs") as [qa_pairs|];
    [|cbn in Hload; discriminate].
  cbn in Hload. destruct (truthy qa_pairs).
  - destruct (js_map qaPairSample qa_pairs) as [samples|];
      [|cbn in Hload; discriminate].
    cbn in Hload.
    destruct (get (Some jsonData) "system_context");
      [|cbn in Hload; discriminate].
    cbn in Hload. by injection Hload as <- <-.
  - destruct (match jsonData with JArr _ => _ | _ => _ end) as [samples|];
      [|cbn in Hload; discriminate].
    cbn in Hload. by injection Hload as <- <-.
Qed.

(** A file whose text does not parse changes nothing. *)
Lemma handleFileUpload_parse_failure (s : state) :
  handleFileUpload (Some (jsonFile None)) s = (s, [ParseFailedToast]).
Proof. reflexivity. Qed.

(** C6, at the document [{"foo": 1}].  The import does not fail: it
    reports "Loaded 0 samples" and replaces the two samples the list held
    by the empty list. *)
Theorem handleFileUpload_unrecognized_shape :
  let out := handleFileUpload (Some (jsonFile (Some unrecognizedDoc))) initial in
  out.2 = [LoadedToast 0]
  ∧ testSamples out.1 = []
  ∧ length (testSamples initial) = 2%nat.
Proof. by vm_compute. Qed.

(** C9.  The manual add never takes the list beyond 10 samples, but the
    import of an array of eleven strings leaves the list with eleven. *)
Theorem sample_cap_manual_add_only :
  (∀ s, (length (testSamples (handleAddSample s).1)
         ≤ Nat.max 10 (length (testSamples s)))%nat)
  ∧ (let out := handleFileUpload (Some (jsonFile (Some elevenTexts))) initial in
     out.2 = [LoadedToast 11] ∧ length (testSamples out.1) = 11%nat).
Proof. split; [apply handleAddSample_length | by vm_compute]. Qed.

(** The Q&A document of the usage guide loads both pairs and seeds the
    system context. *)
Example handleFileUpload_qa_pairs :
  let out := handleFileUpload (Some (jsonFile (Some qaDoc))) initial in
  testSamples out.1
  = [ {| text := Some (JStr "What is the capital of France?");
         expected_answer := Some (JStr "Paris") |};
      {| text := Some (JStr "What is 2+2?");
         expected_answer := Some (JStr "4") |} ]
  ∧ systemContext out.1 = Some (JStr "You are a helpful assistant.")
  ∧ out.2 = [LoadedToast 2].
Proof. by vm_compute. Qed.

End SampleList.

(** ** The rating workflow *)

Section RatingWorkflow.

Import RatingModal Fixtures.

Implicit Types (m : modal) (ev : event) (s : SampleResult).

Lemma render_Reviewing (o : bool) (smp : option (list SampleResult))
    (t : state) s :
  render o smp t = Reviewing s ↔
  o = true ∧ successfulSamples smp !! currentIndex t = Some s.
Proof.
  unfold render. destruct o; cbn.
  - destruct (Nat.eqb_spec (length (successfulSamples smp)) 0) as [H0|H0].
    + apply length_zero_iff_nil in H0. rewrite H0.
      split; [by destruct (_ && true) | by intros [_ ?]].
    + destruct (_ !! _) as [s'|]; split;
        [by intros [= ->] | by intros [_ [= ->]] | done | by intros [_ ?]].
  - split; [done | by intros [? _]].
Qed.

Lemma render_NoSamplesToRate (o : bool) (smp : option (list SampleResult))
    (t : state) :
  render o smp t = NoSamplesToRate ↔
  o = true ∧ successfulSamples smp = [] ∧ ∃ l, smp = Some l ∧ l ≠ [].
Proof.
  unfold render. destruct o; cbn.
  - destruct (Nat.eqb_spec (length (successfulSamples smp)) 0) as [H0|H0].
    + apply length_zero_iff_nil in H0. rewrite andb_true_r.
      destruct smp as [[|x l]|]; cbn; split; try done.
      * by intros (_ & _ & l & [= <-] & ?).
      * intros _. split_and!; try done. by exists (x :: l).
      * by intros (_ & _ & l & [=] & ?).
    + split.
      * by destruct (_ !! _).
      * intros (_ & Hnil & _). by rewrite Hnil in H0.
  - split; [done|]. by intros [[=] _].
Qed.

Lemma elem_of_successfulSamples (l : list SampleResult) s :
  s ∈ successfulSamples (Some l) ↔ s ∈ l ∧ success s = true.
Proof.
  cbn. rewrite list_elem_of_filter, Is_true_true. tauto.
Qed.

Lemma successfulSamples_sublist (l : list SampleResult) :
  successfulSamples (Some l) `sublist_of` l.
Proof. apply sublist_filter. Qed.

Lemma successfulSamples_nil (l : list SampleResult) :
  successfulSamples (Some l) = [] ↔ ∀ s, s ∈ l → success s = false.
Proof.
  split.
  - intros Hnil s Hs. destruct (success s) eqn:Hok; [|done].
    assert (s ∈ successfulSamples (Some l)) as Hin
      by by apply elem_of_successfulSamples.
    rewrite Hnil in Hin. by apply not_elem_of_nil in Hin.
  - intros Hall. apply elem_of_nil_inv. intros s.
    rewrite elem_of_successfulSamples. intros [Hs Hok].
    rewrite (Hall s Hs) in Hok. done.
Qed.

Lemma render_RenderThrows (o : bool) (smp : option (list SampleResult))
    (t : state) :
  render o smp t = RenderThrows ↔
  o = true ∧ successfulSamples smp ≠ []
  ∧ (length (successfulSamples smp) ≤ currentIndex t)%nat.
Proof.
  unfold render. destruct o; cbn.
  - destruct (Nat.eqb_spec (length (successfulSamples smp)) 0) as [H0|H0].
    + apply length_zero_iff_nil in H0. rewrite H0.
      split; [by destruct (_ && true) | by intros (_ & ? & _)].
    + destruct (_ !! _) as [s'|] eqn:Hs; split; try done.
      * intros (_ & _ & Hle). apply lookup_lt_Some in Hs. lia.
      * intros _. apply lookup_ge_None in Hs. split_and!; [done| |done].
        intros Hnil. by rewrite Hnil in H0.
  - split; [done | by intros [? _]].
Qed.

Lemma view_of_closed m : isOpen m = false → view_of m = RenderNull.
Proof. intros Hc. unfold view_of, render. by rewrite Hc. Qed.

(** Opening a closed modal: the first render decides. *)
Lemma step_Open_throws m (smp : option (list SampleResult)) :
  isOpen m = false → view_of (firstRender smp m) = RenderThrows →
  step m (Open smp) = (firstRender smp m, []).
Proof.
  intros Hc Hv. unfold step. by rewrite (view_of_closed m Hc), Hc, Hv.
Qed.

Lemma step_Open_renders m (smp : option (list SampleResult)) :
  isOpen m = false → view_of (firstRender smp m) ≠ RenderThrows →
  step m (Open smp) = (openEffect (firstRender smp m), []).
Proof.
  intros Hc Hv. unfold step. rewrite (view_of_closed m Hc), Hc.
  by destruct (view_of (firstRender smp m)).
Qed.

(** A component whose render threw stays as it is. *)
Lemma step_thrown m ev : view_of m = RenderThrows → step m ev = (m, []).
Proof. intros Hv. unfold step. rewrite Hv. by destruct ev. Qed.

(** From the notice nothing leads to the rating dialog. *)
Lemma step_from_notice m ev :
  view_of m = NoSamplesToRate →
  view_of (step m ev).1 = NoSamplesToRate ∨ isOpen (step m ev).1 = false.
Proof.
  intros Hv. pose proof Hv as Hv'.
  apply render_NoSamplesToRate in Hv' as (Ho & Hnil & l & Hl & Hne).
  unfold step. rewrite Hv. destruct ev; cbn; auto.
  - rewrite Ho. auto.
  - destruct (timers (st m) !! k) as [[i n]|]; cbn; [|auto].
    left. unfold view_of. cbn. apply render_NoSamplesToRate. eauto.
Qed.

(** Opening a closed modal on results that all failed gives the notice,
    whatever index the modal was left with. *)
Lemma open_on_failures m (l : list SampleResult) :
  isOpen m = false → l ≠ [] → (∀ s, s ∈ l → success s = false) →
  view_of (step m (Open (Some l))).1 = NoSamplesToRate.
Proof.
  intros Hc Hne Hall.
  assert (successfulSamples (Some l) = []) as Hnil
    by by apply successfulSamples_nil.
  rewrite step_Open_renders; [|done|].
  - apply render_NoSamplesToRate. cbn [fst openEffect with_state firstRender
      isOpen samples]. split_and!; [done|done|by exists l].
  - intros Ht. apply render_RenderThrows in Ht as (_ & Hss & _). by destruct Hss.
Qed.

(** The Next button walks through the successful samples one by one. *)
Lemma run_ClickNext (l : list SampleResult) (j k : nat) (r : gmap nat Z)
    (tm : list (nat * nat)) :
  (k + j < length (successfulSamples (Some l)))%nat →
  run {| isOpen := true; samples := Some l;
         st := {| currentIndex := k; ratings := r; timers := tm |} |}
      (replicate j ClickNext)
  = {| isOpen := true; samples := Some l;
       st := {| currentIndex := k + j; ratings := r; timers := tm |} |}.
Proof.
  revert k. induction j as [|j IH]; intros k Hlt.
  - cbn. by rewrite Nat.add_0_r.
  - cbn [replicate run foldl]. fold (run (step {| isOpen := true;
      samples := Some l;
      st := {| currentIndex := k; ratings := r; timers := tm |} |}
      ClickNext).1 (replicate j ClickNext)).
    assert (∃ s, successfulSamples (Some l) !! k = Some s) as [s Hs]
      by (apply lookup_lt_is_Some; lia).
    assert (step {| isOpen := true; samples := Some l;
                    st := {| currentIndex := k; ratings := r; timers := tm |} |}
              ClickNext
            = ({| isOpen := true; samples := Some l;
                  st := {| currentIndex := k + 1; ratings := r;
                           timers := tm |} |}, [])) as ->.
    { unfold step, view_of. cbn [isOpen samples st].
      rewrite (proj2 (render_Reviewing true (Some l)
                        {| currentIndex := k; ratings := r; timers := tm |} s)
                 (conj eq_refl Hs)).
      unfold handleNext, with_state, setCurrentIndex.
      cbn [samples st currentIndex ratings timers isOpen].
      destruct (Z.ltb_spec (Z.of_nat k)
                  (Z.of_nat (length (successfulSamples (Some l))) - 1));
        [done|lia]. }
    cbn [fst]. rewrite (IH (k + 1)%nat) by lia.
    by replace (k + 1 + j)%nat with (k + S j)%nat by lia.
Qed.

Lemma open_and_next (l : list SampleResult) (i : nat) s :
  successfulSamples (Some l) !! i = Some s →
  view_of (run closed (Open (Some l) :: replicate i ClickNext)) = Reviewing s.
Proof.
  intros Hs. pose proof (lookup_lt_Some _ _ _ Hs) as Hlt.
  cbn [run foldl].
  rewrite step_Open_renders; [|done|].
  - change (foldl _ _ _)
      with (run {| isOpen := true; samples := Some l;
                   st := {| currentIndex := 0; ratings := ∅; timers := [] |} |}
              (replicate i ClickNext)).
    rewrite run_ClickNext by (cbn [Nat.add]; lia).
    apply render_Reviewing. by split.
  - intros Ht. apply render_RenderThrows in Ht as (_ & _ & Hle).
    cbn in Hle. cbn in Hlt. lia.
Qed.

(** C7.  A render reaches the rating dialog only when the modal is open
    and shows a sample that is in the experiment's results and succeeded:
    the one at [currentIndex] in the successful samples; and an open modal
    shows exactly that sample whenever there is one at that index.  The
    successful samples are the successful results in their original
    order, each as often as it occurs.  Opened from the closed modal, the
    dialog presents them one by one: the i-th after i clicks on Next.
    When the modal is open on results that are not empty and all failed,
    the render is the "No Samples to Rate" notice, also right after
    opening a modal that was used before; its Close button closes the
    modal, and no event leads from the notice to the rating dialog. *)
Theorem reviewing_only_successful (o : bool)
    (smp : option (list SampleResult)) (t : state) :
  (∀ s, render o smp t = Reviewing s →
        o = true ∧
        ∃ l, smp = Some l ∧ s ∈ l ∧ success s = true ∧
             successfulSamples smp !! currentIndex t = Some s)
  ∧ (∀ l, smp = Some l →
          successfulSamples smp `sublist_of` l ∧
          ∀ s, s ∈ successfulSamples smp ↔ s ∈ l ∧ success s = true)
  ∧ (∀ l, o = true → smp = Some l → l ≠ [] →
          (∀ s, s ∈ l → success s = false) →
          render o smp t = NoSamplesToRate)
  ∧ (∀ m, view_of m = NoSamplesToRate →
          step m ClickClose = (close m, [OnClose]) ∧
          isOpen (close m) = false ∧
          ∀ ev s, view_of (step m ev).1 ≠ Reviewing s)
  ∧ (∀ s, render o smp t = Reviewing s ↔
          o = true ∧ successfulSamples smp !! currentIndex t = Some s)
  ∧ (successfulSamples None = []
     ∧ (∀ x, successfulSamples (Some [x]) = if success x then [x] else [])
     ∧ ∀ l1 l2, successfulSamples (Some (l1 ++ l2))
                = successfulSamples (Some l1) ++ successfulSamples (Some l2))
  ∧ (∀ l i s, successfulSamples (Some l) !! i = Some s →
        view_of (run closed (Open (Some l) :: replicate i ClickNext))
        = Reviewing s)
  ∧ (∀ m l, isOpen m = false → l ≠ [] →
        (∀ s, s ∈ l → success s = false) →
        view_of (step m (Open (Some l))).1 = NoSamplesToRate).
Proof.
  split_and!.
  - intros s Hr. apply render_Reviewing in Hr as [-> Hs]. split; [done|].
    destruct smp as [l|]; [|done]. exists l.
    assert (s ∈ successfulSamples (Some l)) as Hin
      by (apply list_elem_of_lookup; eauto).
    apply elem_of_successfulSamples in Hin as [? ?]. done.
  - intros l ->. split.
    + apply successfulSamples_sublist.
    + apply elem_of_successfulSamples.
  - intros l -> -> Hne Hall. apply render_NoSamplesToRate.
    split_and!; [done| |by exists l]. by apply successfulSamples_nil.
  - intros m Hv. split_and!.
    + unfold step. by rewrite Hv.
    + done.
    + intros ev s Hr. destruct (step_from_notice m ev Hv) as [Hn|Hc].
      * rewrite Hn in Hr. discriminate.
      * apply render_Reviewing in Hr as [Ho _]. congruence.
  - intros s. apply render_Reviewing.
  - done.
  - intros x. unfold successfulSamples. rewrite filter_cons, filter_nil.
    by destruct (success x).
  - intros l1 l2. unfold successfulSamples. apply list.filter_app.
  - apply open_and_next.
  - apply open_on_failures.
Qed.

Lemma step_ratings_in_range m ev :
  (view_of m ≠ RenderThrows → ratings_in_range m) →
  view_of (step m ev).1 ≠ RenderThrows → ratings_in_range (step m ev).1.
Proof.
  intros Hinv.
  assert (view_of m = RenderThrows ∨ view_of m ≠ RenderThrows) as [Ht|Hnt]
    by (destruct (view_of m); auto).
  { rewrite (step_thrown m ev Ht). by intros []. }
  specialize (Hinv Hnt).
  destruct ev as [smp|star| | | | |k];
    [|intros _; unfold step; cbn..].
  - destruct (isOpen m) eqn:Hc.
    + assert (step m (Open smp) = (m, [])) as ->; [|done].
      unfold step. rewrite Hc. by destruct (view_of m).
    + assert (view_of (firstRender smp m) = RenderThrows
              ∨ view_of (firstRender smp m) ≠ RenderThrows) as [Ht|Hok]
        by (destruct (view_of (firstRender smp m)); auto).
      * rewrite step_Open_throws by done. by intros [].
      * rewrite step_Open_renders by done.
        intros _ i v. cbn. by rewrite lookup_empty.
  - destruct (view_of m) as [| |s|] eqn:Hv; try done.
    apply render_Reviewing in Hv as [_ Hs]. apply lookup_lt_Some in Hs.
    intros i v. cbn. rewrite lookup_insert.
    case_decide as Hi; [|by apply Hinv].
    intros [= <-]. subst i. split; [done|]. destruct star; cbn; lia.
  - destruct (view_of m); try done.
    unfold handleNext. by destruct (_ <? _)%Z.
  - destruct (view_of m); try done.
    unfold handlePrevious. by destruct (_ <? _)%Z.
  - destruct (view_of m); try done.
    by destruct (calls_onClose _).
  - by destruct (view_of m).
  - destruct (view_of m); try done;
      (destruct (timers (st m) !! k) as [[i n]|]; [|done]);
      unfold timerCallback; by destruct (_ <? _)%Z.
Qed.

Lemma reachable_ratings_in_range m :
  reachable m → view_of m ≠ RenderThrows → ratings_in_range m.
Proof.
  intros [evs ->]. unfold run.
  induction evs as [|ev evs IH] using rev_ind.
  - intros _ i v. cbn. by rewrite lookup_empty.
  - rewrite foldl_app. cbn. by apply step_ratings_in_range.
Qed.

Lemma Reviewing_not_throws m (s : SampleResult) :
  view_of m = Reviewing s → view_of m ≠ RenderThrows.
Proof. by intros ->. Qed.

Lemma unrated_size (ss : list SampleResult) (r : gmap nat Z) :
  (∀ i, is_Some (r !! i) → (i < length ss)%nat) →
  size (unrated ss r) = (length ss - size r)%nat.
Proof.
  intros Hdom. unfold unrated. rewrite size_difference.
  - by rewrite size_set_seq, size_dom.
  - intros i Hi. apply elem_of_dom in Hi. apply elem_of_set_seq.
    specialize (Hdom i Hi). lia.
Qed.

Lemma total_unrated (ss : list SampleResult) (r : gmap nat Z) :
  total ss r ↔ size (unrated ss r) = 0%nat.
Proof.
  rewrite size_empty_iff. unfold total, unrated. split.
  - intros Ht i. rewrite elem_of_difference, elem_of_set_seq, elem_of_dom.
    split; [|by intros ?%not_elem_of_empty].
    intros [[_ Hi] Hno]. destruct Hno. apply Ht. lia.
  - intros He i Hi. apply elem_of_dom.
    destruct (decide (i ∈ dom r)) as [|Hno]; [done|].
    exfalso. apply (not_elem_of_empty (C:=gset nat) i). rewrite <- He.
    apply elem_of_difference. split; [|done]. apply elem_of_set_seq. lia.
Qed.

(** What saving does, by the comparison it makes; and that in a reachable
    state a total rating has as many entries as there are successful
    samples. *)
Lemma total_save_step m s :
  reachable m → view_of m = Reviewing s →
  let ss := successfulSamples (samples m) in
  let r := ratings (st m) in
  (total ss r →
     step m ClickSave
     = (close m, [OnSaveRatings r (averageAccuracy ss r);
                  ToastSuccess (averageAccuracy ss r); OnClose]))
  ∧ (total ss r → size r = length ss).
Proof.
  intros Hreach Hv ss r.
  pose proof (reachable_ratings_in_range m Hreach
                (Reviewing_not_throws m s Hv)) as Hinv.
  assert (size (unrated ss r) = (length ss - size r)%nat) as Hsize.
  { apply unrated_size. intros i [v Hi]. by apply (Hinv i v). }
  assert (size r ≤ length ss)%nat as Hle.
  { rewrite <- size_dom, <- (size_set_seq (C:=gset nat) 0 (length ss)).
    apply subseteq_size. intros i Hi. apply elem_of_dom in Hi as [v Hi].
    apply elem_of_set_seq. destruct (Hinv i v Hi). unfold ss. lia. }
  split; intros Ht; apply total_unrated in Ht; [|lia].
  unfold step. rewrite Hv. unfold handleSave. fold ss r.
  destruct (Z.ltb_spec 0 (Z.of_nat (length ss) - Z.of_nat (size r))); [lia|done].
Qed.

(** C8.  In every state the workflow can reach, with the rating dialog on
    screen: saving emits the ratings and closes exactly when every index
    of the successful samples has a rating; otherwise its only effect is
    the error toast naming how many indices are still unrated, which is
    more than none, and the modal is as before: still open, same index,
    same ratings, neither [onSaveRatings] nor [onClose] called. *)
Theorem save_needs_every_rating m s :
  reachable m → view_of m = Reviewing s →
  let ss := successfulSamples (samples m) in
  let r := ratings (st m) in
  (total ss r →
     step m ClickSave
     = (close m, [OnSaveRatings r (averageAccuracy ss r);
                  ToastSuccess (averageAccuracy ss r); OnClose]))
  ∧ (¬ total ss r →
     step m ClickSave = (m, [ToastError (Z.of_nat (size (unrated ss r)))]) ∧
     (0 < size (unrated ss r))%nat)
  ∧ ((∃ r' a, OnSaveRatings r' a ∈ (step m ClickSave).2) → total ss r).
Proof.
  intros Hreach Hv ss r.
  pose proof (reachable_ratings_in_range m Hreach
                (Reviewing_not_throws m s Hv)) as Hinv.
  assert (size (unrated ss r) = (length ss - size r)%nat) as Hsize.
  { apply unrated_size. intros i [v Hi]. by apply (Hinv i v). }
  assert (step m ClickSave
          = if (0 <? Z.of_nat (length ss) - Z.of_nat (size r))%Z
            then (m, [ToastError (Z.of_nat (length ss) - Z.of_nat (size r))%Z])
            else (close m, [OnSaveRatings r (averageAccuracy ss r);
                            ToastSuccess (averageAccuracy ss r); OnClose]))
    as Hstep.
  { unfold step. rewrite Hv. unfold handleSave. fold ss r.
    by destruct (_ <? _)%Z. }
  rewrite Hstep. rewrite total_unrated, Hsize.
  destruct (Z.ltb_spec 0 (Z.of_nat (length ss) - Z.of_nat (size r))) as [Hlt|Hge].
  - split_and!.
    + intros Hz. lia.
    + intros _. split; [|lia]. do 3 f_equal. lia.
    + intros (r' & a & Hin). cbn in Hin.
      apply list_elem_of_singleton in Hin. done.
  - split_and!.
    + done.
    + intros Hnz. lia.
    + intros _. lia.
Qed.

(** *** The accuracy a save emits *)

Lemma foldl_add_foldr (l : list Z) (a : Z) :
  foldl (λ sum rating, sum + rating)%Z a l = (a + foldr Z.add 0 l)%Z.
Proof.
  revert a. induction l as [|x l IH]; intros a; cbn; [lia|].
  rewrite IH. lia.
Qed.

Lemma Math_clamp (x : Qc) :
  Math_min (Qc_of_Z 100) (Math_max (Qc_of_Z 0) x)
  = clamp_spec (Qc_of_Z 0) (Qc_of_Z 100) x.
Proof.
  assert (Qc_of_Z 0 < Qc_of_Z 100) as H0100 by done.
  unfold Math_min, Math_max, clamp_spec.
  destruct (decide (x < Qc_of_Z 0)) as [Hneg|Hnn].
  - destruct (Qclt_le_dec (Qc_of_Z 0) x) as [Hpos|_].
    + destruct (Qclt_irrefl x). by apply Qclt_trans with (Qc_of_Z 0).
    + by destruct (Qclt_le_dec (Qc_of_Z 0) (Qc_of_Z 100)).
  - apply Qcnot_lt_le in Hnn.
    destruct (decide (Qc_of_Z 100 < x)) as [Hbig|Hsmall].
    + destruct (Qclt_le_dec (Qc_of_Z 0) x) as [_|Hle].
      * destruct (Qclt_le_dec x (Qc_of_Z 100)) as [Hlt|_]; [|done].
        destruct (Qclt_irrefl x). by apply Qclt_trans with (Qc_of_Z 100).
      * destruct (Qclt_irrefl x).
        apply Qcle_lt_trans with (Qc_of_Z 0); [done|].
        by apply Qclt_trans with (Qc_of_Z 100).
    + apply Qcnot_lt_le in Hsmall.
      destruct (Qclt_le_dec (Qc_of_Z 0) x) as [_|Hle].
      * destruct (Qclt_le_dec x (Qc_of_Z 100)) as [_|Hge]; [done|].
        by apply Qcle_antisym.
      * assert (x = Qc_of_Z 0) as -> by by apply Qcle_antisym.
        by destruct (Qclt_le_dec (Qc_of_Z 0) (Qc_of_Z 100)).
Qed.

Lemma averageAccuracy_spec (ss : list SampleResult) (r : gmap nat Z) :
  size r = length ss → averageAccuracy ss r = accuracy_spec r.
Proof.
  intros Hsize. unfold averageAccuracy, accuracy_spec, mean_spec, totalRating.
  rewrite Math_clamp, foldl_add_foldr, Z.add_0_l.
  by rewrite length_fmap, length_map_to_list, Hsize.
Qed.

Lemma save_effects_eq (r r' : gmap nat Z) (a a' : Qc) :
  r = r' → a = a' →
  [OnSaveRatings r a; ToastSuccess a; OnClose]
  = [OnSaveRatings r' a'; ToastSuccess a'; OnClose].
Proof. by intros -> ->. Qed.

(** C2.  In a state the workflow can reach, with the rating dialog on
    screen and every index of the successful samples rated, saving emits
    the ratings with the accuracy [clamp(0,100, mean(ratings.values()) *
    20)] and closes.  Three successful samples rated 5, 5, 5 give 100;
    rated 2, 3, 4 they give 60. *)
Theorem save_emits_mean_accuracy :
  (∀ m s,
     reachable m → view_of m = Reviewing s →
     total (successfulSamples (samples m)) (ratings (st m)) →
     step m ClickSave
     = (close m,
        [OnSaveRatings (ratings (st m)) (accuracy_spec (ratings (st m)));
         ToastSuccess (accuracy_spec (ratings (st m))); OnClose]))
  ∧ (step (run closed (rateAll Star5 Star5 Star5)) ClickSave).2
    = [OnSaveRatings {[ 0%nat := 5%Z; 1%nat := 5%Z; 2%nat := 5%Z ]}
         (Qc_of_Z 100);
       ToastSuccess (Qc_of_Z 100); OnClose]
  ∧ (step (run closed (rateAll Star2 Star3 Star4)) ClickSave).2
    = [OnSaveRatings {[ 0%nat := 2%Z; 1%nat := 3%Z; 2%nat := 4%Z ]}
         (Qc_of_Z 60);
       ToastSuccess (Qc_of_Z 60); OnClose].
Proof.
  split_and!.
  - intros m s Hreach Hv Htotal.
    destruct (total_save_step m s Hreach Hv) as [Hsave Hsize].
    rewrite (Hsave Htotal). f_equal. apply save_effects_eq; [done|].
    apply averageAccuracy_spec, Hsize, Htotal.
  - apply save_effects_eq; [by vm_compute|].
    apply Qc_is_canon. by vm_compute.
  - apply save_effects_eq; [by vm_compute|].
    apply Qc_is_canon. by vm_compute.
Qed.

(** *** Concrete sessions *)

Lemma reachable_run (evs : list event) : reachable (run closed evs).
Proof. by exists evs. Qed.

(** The witness for C7: the modal opened on a run whose two samples both
    failed. *)
Lemma reviewing_only_successful_witness :
  render true failedRun (st closed) = NoSamplesToRate.
Proof.
  refine (proj1 (proj2 (proj2
            (reviewing_only_successful true failedRun (st closed))))
            [failedSample; failedSample] eq_refl eq_refl _ _).
  - discriminate.
  - intros s Hs. apply list_elem_of_In in Hs. cbn in Hs.
    destruct Hs as [<-|[<-|[]]]; reflexivity.
Defined.

(** The witness for C8: after rating the first and the third of three
    successful samples, saving only says that 1 remains. *)
Lemma save_needs_every_rating_witness :
  let m := run closed rateTwo in
  step m ClickSave = (m, [ToastError 1]).
Proof.
  intros m.
  refine (proj1 (proj1 (proj2
            (save_needs_every_rating m okSample (reachable_run rateTwo) _)) _)).
  - reflexivity.
  - intros Ht. destruct (Ht 1%nat) as [v Hv].
    + vm_compute. lia.
    + vm_compute in Hv. discriminate.
Defined.

(** The witness for C2: three successful samples rated 2, 3 and 4. *)
Lemma save_emits_mean_accuracy_witness :
  let m := run closed (rateAll Star2 Star3 Star4) in
  step m ClickSave
  = (close m,
     [OnSaveRatings (ratings (st m)) (accuracy_spec (ratings (st m)));
      ToastSuccess (accuracy_spec (ratings (st m))); OnClose]).
Proof.
  intros m.
  refine (proj1 save_emits_mean_accuracy m okSample
            (reachable_run (rateAll Star2 Star3 Star4)) _ _).
  - reflexivity.
  - intros i Hi. vm_compute in Hi.
    destruct i as [|[|[|i]]]; [by eexists..|lia].
Defined.

End RatingWorkflow.

(** * Further properties of the code around the claims *)

(** ** Error reports *)

Section ErrorReports.

Import PromptTester ErrorHandler ErrorHandling.

Variable JSON_stringify : json → string.
Variable String_of : json → string.

Lemma getErrorTypeFromStatus_spec (s : Z) :
  (getErrorTypeFromStatus s = AUTH_ERROR ↔ s = 401 ∨ s = 403)%Z
  ∧ (getErrorTypeFromStatus s = RATE_LIMIT ↔ s = 429)%Z
  ∧ (getErrorTypeFromStatus s = VALIDATION_ERROR
     ↔ 400 ≤ s < 500 ∧ s ≠ 401 ∧ s ≠ 403 ∧ s ≠ 429)%Z
  ∧ (getErrorTypeFromStatus s = API_ERROR ↔ 500 ≤ s)%Z
  ∧ (getErrorTypeFromStatus s = UNKNOWN_ERROR ↔ s < 400)%Z
  ∧ getErrorTypeFromStatus s ≠ NETWORK_ERROR.
Proof.
  unfold getErrorTypeFromStatus.
  destruct (Z.eqb_spec s 401), (Z.eqb_spec s 403), (Z.eqb_spec s 429),
    (Z.leb_spec 400 s), (Z.ltb_spec s 500), (Z.leb_spec 500 s);
    cbn; split_and!; try split; try discriminate; try lia; intros; try lia;
    try done.
Qed.

(** X1.  Whenever [handleError] returns, the type of its report says what
    kind of failure it was: AUTH_ERROR exactly for a response with status
    401 or 403, RATE_LIMIT exactly for 429, VALIDATION_ERROR for the other
    statuses from 400 to 499, API_ERROR for 500 and above, NETWORK_ERROR
    exactly when there is no response but a request; and the toast shows
    the report's message with the icon of its type. *)
Theorem handleError_type (e : ErrorValue) (r : Report) (t : json * icon) :
  handleError JSON_stringify String_of e = Some (r, t) →
  (type r = AUTH_ERROR
   ↔ ∃ resp, response e = Some resp ∧ (status resp = 401 ∨ status resp = 403)%Z)
  ∧ (type r = RATE_LIMIT
     ↔ ∃ resp, response e = Some resp ∧ status resp = 429%Z)
  ∧ (type r = VALIDATION_ERROR
     ↔ ∃ resp, response e = Some resp ∧
         (400 ≤ status resp < 500 ∧ status resp ≠ 401 ∧
          status resp ≠ 403 ∧ status resp ≠ 429)%Z)
  ∧ (type r = API_ERROR
     ↔ ∃ resp, response e = Some resp ∧ (500 ≤ status resp)%Z)
  ∧ (type r = NETWORK_ERROR ↔ response e = None ∧ request e = true)
  ∧ t = (report_message r, iconFor (type r)).
Proof.
  unfold handleError. intros H.
  destruct (response e) as [resp|] eqn:Hresp.
  - destruct (responseMessage JSON_stringify String_of resp) as [m|]; [|done].
    cbn in H. injection H as <- <-. cbn.
    destruct (getErrorTypeFromStatus_spec (status resp))
      as (Ha & Hr & Hv & Hs & _ & Hn).
    split_and!; try done.
    + rewrite Ha. split; [eauto|]. by intros (? & [= <-] & ?).
    + rewrite Hr. split; [eauto|]. by intros (? & [= <-] & ?).
    + rewrite Hv. split; [eauto|]. by intros (? & [= <-] & ?).
    + rewrite Hs. split; [eauto|]. by intros (? & [= <-] & ?).
    + split; [done|]. by intros [[=] _].
  - assert (∃ m, r = {| type := if request e then NETWORK_ERROR
                                else UNKNOWN_ERROR;
                        report_message := m; details := None |}
            ∧ t = (report_message r, iconFor (type r))) as (m & -> & ->).
    { destruct (request e); [|destruct (message e)];
        cbn in H; injection H as <- <-; eauto. }
    cbn. split_and!; try done;
      try (split; [by destruct (request e) | by intros (? & [=] & _)]).
    destruct (request e); split; try done. by intros [_ [=]].
Qed.

Lemma detailItemMessage_None (err : json) :
  detailItemMessage JSON_stringify err = None ↔ err = JNull.
Proof. unfold detailItemMessage. destruct err; cbn; split; done. Qed.

(** X2.  [handleError] itself throws exactly when the response's [detail]
    is an array with a [null] among its elements (the callback of its
    [map] reads [err.msg] of it); for every other error it returns. *)
Theorem handleError_throws (e : ErrorValue) :
  handleError JSON_stringify String_of e = None
  ↔ ∃ resp items, response e = Some resp ∧
      optGet (data resp) "detail" = Some (JArr items) ∧ JNull ∈ items.
Proof.
  unfold handleError. destruct (response e) as [resp|].
  - assert (responseMessage JSON_stringify String_of resp = None
            ↔ ∃ items, optGet (data resp) "detail" = Some (JArr items)
                       ∧ JNull ∈ items) as Hm.
    { unfold responseMessage.
      destruct (optGet (data resp) "detail") as [[| | | |items|fields]|] eqn:Hd;
        cbn.
      all: try (split; [try done; by repeat case_match
                       | by intros (? & [=] & _)]).
      - destruct (mapM _ items) as [parts|] eqn:Hparts; cbn.
        + split; [intros [=]|]. intros (items' & Heq & Hin).
          injection Heq as <-.
          assert (mapM (detailItemMessage JSON_stringify) items = None)
            as Hnone; [|congruence].
          apply mapM_None, Exists_exists. exists JNull.
          split; [by apply list_elem_of_In|]. by apply detailItemMessage_None.
        + split; [|done]. intros _. exists items. split; [done|].
          apply mapM_None_1, Exists_exists in Hparts as (x & Hx & Hnull).
          apply detailItemMessage_None in Hnull. subst x.
          by apply list_elem_of_In.
    }
    split.
    + intros H. destruct (responseMessage _ _ resp) as [m|]; [done|].
      destruct (proj1 Hm eq_refl) as (items & ? & ?). by exists resp, items.
    + intros (resp' & items & [= <-] & Hd & Hin).
      assert (responseMessage JSON_stringify String_of resp = None) as ->; [|done].
      apply Hm. eauto.
  - split; [|by intros (? & ? & [=] & _)].
    by destruct (request e); [|destruct (message e)].
Qed.

(** X3.  Every status the retry helper refuses to retry (400 and 401) is
    one [handleError] reports as a validation or an authentication error;
    every status it reports as RATE_LIMIT or API_ERROR is retried; and a
    403, although reported as AUTH_ERROR, is retried. *)
Theorem noRetry_vs_error_type (s : Z) :
  (noRetry (Some s) = true →
   getErrorTypeFromStatus s = VALIDATION_ERROR
   ∨ getErrorTypeFromStatus s = AUTH_ERROR)
  ∧ (getErrorTypeFromStatus s = RATE_LIMIT
     ∨ getErrorTypeFromStatus s = API_ERROR →
     noRetry (Some s) = false)
  ∧ (s = 403%Z →
     getErrorTypeFromStatus s = AUTH_ERROR ∧ noRetry (Some s) = false).
Proof.
  destruct (getErrorTypeFromStatus_spec s) as (Ha & Hr & Hv & Hs & _ & _).
  unfold noRetry. rewrite orb_true_iff, orb_false_iff, !Z.eqb_eq, !Z.eqb_neq.
  split_and!.
  - intros [-> | ->]; [left; apply Hv; lia | right; apply Ha; lia].
  - rewrite Hr, Hs. lia.
  - intros ->. split; [apply Ha; lia | lia].
Qed.

End ErrorReports.

(** ** White space, and what the validation helpers accept *)

Section Validation.

Import PromptTester ErrorHandling.

Local Abbreviation chars := String.list_ascii_of_string.

Lemma chars_inj (s t : string) : chars s = chars t → s = t.
Proof.
  intros H. rewrite <- (String.string_of_list_ascii_of_string s),
    <- (String.string_of_list_ascii_of_string t). by rewrite H.
Qed.

Lemma chars_rev_app (s t : string) :
  chars (String.rev_app s t) = reverse (chars s) ++ chars t.
Proof.
  revert t. induction s as [|c s IH]; intros t;
    cbn [String.rev_app String.list_ascii_of_string]; [done|].
  rewrite IH, reverse_cons, <- app_assoc. done.
Qed.

Lemma chars_rev (s : string) : chars (String.rev s) = reverse (chars s).
Proof. unfold String.rev. by rewrite chars_rev_app, app_nil_r. Qed.

Lemma chars_trimStart (s : string) : chars (trimStart s) = dropSpaces (chars s).
Proof.
  induction s as [|c s IH]; cbn; [done|]. by destruct (Ascii.is_space c).
Qed.

Lemma chars_trim (s : string) :
  chars (trim s) = reverse (dropSpaces (reverse (dropSpaces (chars s)))).
Proof.
  unfold trim. by rewrite chars_rev, chars_trimStart, chars_rev, chars_trimStart.
Qed.

Lemma dropSpaces_head (l : list Ascii.ascii) c r :
  dropSpaces l = c :: r → Ascii.is_space c = false.
Proof.
  induction l as [|x l IH]; cbn; [done|].
  destruct (Ascii.is_space x) eqn:Hx; [done|]. by intros [= <- _].
Qed.

Lemma dropSpaces_suffix (l : list Ascii.ascii) :
  ∃ pre, l = pre ++ dropSpaces l.
Proof.
  induction l as [|x l [pre IH]]; cbn; [by exists []|].
  destruct (Ascii.is_space x); [|by exists []].
  exists (x :: pre). cbn. by rewrite <- IH.
Qed.

Lemma dropSpaces_fixed (l : list Ascii.ascii) :
  match l with c :: _ => Ascii.is_space c = false | [] => True end →
  dropSpaces l = l.
Proof. destruct l as [|c r]; cbn; [done|]. by intros ->. Qed.

Lemma dropSpaces_idemp (l : list Ascii.ascii) :
  dropSpaces (dropSpaces l) = dropSpaces l.
Proof.
  apply dropSpaces_fixed. destruct (dropSpaces l) as [|c r] eqn:H; [done|].
  by apply (dropSpaces_head l c r).
Qed.

(** Trimming a trimmed string changes nothing. *)
Lemma trim_idemp (s : string) : trim (trim s) = trim s.
Proof.
  apply chars_inj. rewrite (chars_trim (trim s)), (chars_trim s).
  set (a := dropSpaces (chars s)).
  set (b := dropSpaces (reverse a)).
  assert (dropSpaces (reverse b) = reverse b) as ->.
  { apply dropSpaces_fixed.
    destruct (reverse b) as [|c t'] eqn:Ht; [done|].
    destruct (dropSpaces_suffix (reverse a)) as [pre Hpre]. fold b in Hpre.
    apply (f_equal reverse) in Hpre.
    rewrite reverse_involutive, reverse_app, Ht in Hpre.
    apply (dropSpaces_head (chars s) c (t' ++ reverse pre)).
    by fold a; rewrite Hpre. }
  rewrite reverse_involutive. unfold b. by rewrite dropSpaces_idemp.
Qed.

Lemma prefix_app_l (a b s : string) :
  String.prefix (a +:+ b) s = true → String.prefix a s = true.
Proof.
  revert s. induction a as [|c a IH]; intros s H; [by destruct s|].
  change (String c a +:+ b) with (String c (a +:+ b)) in H.
  destruct s as [|d s]; [done|]. cbn in H |- *.
  destruct (Ascii.ascii_dec c d); [by apply IH|done].
Qed.

Lemma eqb_false_ne (s t : string) : String.eqb s t = false ↔ s ≠ t.
Proof. apply String.eqb_neq. Qed.

(** X4.  A key [validateApiKey] accepts for Anthropic it also accepts for
    OpenAI (the prefix [sk-ant-] begins with [sk-]); no provider accepts a
    key that is empty or white space only; and for a provider other than
    OpenAI and Anthropic nothing else is asked. *)
Theorem validateApiKey_accepts (key provider : string) :
  (validateApiKey key "Anthropic" = Valid → validateApiKey key "OpenAI" = Valid)
  ∧ (validateApiKey key provider = Valid → trim key ≠ "")
  ∧ (provider ≠ "OpenAI" → provider ≠ "Anthropic" → trim key ≠ "" →
     validateApiKey key provider = Valid).
Proof.
  unfold validateApiKey. split_and!.
  - destruct (String.eqb (trim key) ""); [done|]. cbn.
    destruct (String.prefix "sk-ant-" key) eqn:Hp; [|done].
    by rewrite (prefix_app_l "sk-" "ant-" key Hp).
  - destruct (String.eqb_spec (trim key) ""); [done|]. done.
  - intros Ho Ha Hk.
    apply eqb_false_ne in Ho, Ha, Hk. by rewrite Ho, Ha, Hk.
Qed.

Lemma sampleInvalid_good (s : Sample) :
  sampleInvalid s = Some false ↔ goodText s.
Proof.
  unfold sampleInvalid, goodText.
  destruct (text s) as [[| | |t| |]|] eqn:Ht; cbn.
  all: try (split; [by repeat case_match | by intros (? & [=] & _)]).
  destruct (String.eqb_spec t ""); cbn.
  - subst t. split; [done|]. by intros (t & [= <-] & Hne).
  - destruct (String.eqb_spec (trim t) "") as [He|Hne].
    + split; [done|]. intros (t' & [= <-] & ?). done.
    + split; [|done]. intros _. by exists t.
Qed.

Lemma mapM_sampleInvalid_good (l : list Sample) (flags : list bool) :
  mapM sampleInvalid l = Some flags →
  (existsb (λ b, b) flags = false ↔ Forall goodText l).
Proof.
  intros H. apply mapM_Some_1 in H.
  induction H as [|s b l flags Hs _ IH]; cbn.
  - split; [constructor|done].
  - rewrite orb_false_iff, IH, List.Forall_cons_iff, <- sampleInvalid_good, Hs.
    split; intros [? ?]; split; congruence.
Qed.

Lemma validateSamples_good (l : list Sample) :
  l ≠ [] → Forall goodText l → validateSamples l = Valid.
Proof.
  intros Hne Hall. unfold validateSamples.
  destruct l as [|s0 l]; [done|]. cbn [length Nat.eqb].
  destruct (mapM sampleInvalid (s0 :: l)) as [flags|] eqn:Hm.
  - by rewrite (proj2 (mapM_sampleInvalid_good _ flags Hm) Hall).
  - assert (is_Some (mapM sampleInvalid (s0 :: l))) as [? ?]; [|congruence].
    apply mapM_is_Some_2. eapply List.Forall_impl; [|exact Hall].
    intros s Hs. apply sampleInvalid_good in Hs. cbn. by rewrite Hs.
Qed.

(** X5.  [validateSamples] returns [true] exactly for a list that is not
    empty and whose samples all have a string with visible text; it fails
    with a TypeError (not with its own message) exactly when some sample's
    [text] is truthy but not a string. *)
Theorem validateSamples_outcomes (l : list Sample) :
  (validateSamples l = Valid ↔ l ≠ [] ∧ Forall goodText l)
  ∧ (validateSamples l = ThrowsTypeError
     ↔ l ≠ [] ∧ ∃ s, s ∈ l ∧ sampleInvalid s = None)
  ∧ (l = [] → validateSamples l = Invalid "Please add at least one test sample").
Proof.
  unfold validateSamples. destruct l as [|s0 l]; cbn [length Nat.eqb].
  { split_and!; [split|split|done]; try done; by intros [? _]. }
  set (l' := s0 :: l).
  destruct (mapM sampleInvalid l') as [flags|] eqn:Hm.
  - pose proof (mapM_sampleInvalid_good l' flags Hm) as Hg.
    split_and!; [| |done].
    + destruct (existsb _ flags); split; try done.
      * intros [_ Hall]. by apply Hg in Hall.
      * intros _. split; [done|]. by apply Hg.
    + split; [by destruct (existsb _ flags)|].
      intros (_ & s & Hs & Hnone).
      assert (mapM sampleInvalid l' = None) as Hn; [|congruence].
      apply mapM_None_2, List.Exists_exists. exists s.
      split; [by apply list_elem_of_In|done].
  - split_and!; [| |done].
    + split; [done|]. intros [_ Hall].
      assert (is_Some (mapM sampleInvalid l')) as [? ?]; [|congruence].
      apply mapM_is_Some_2. eapply List.Forall_impl; [|exact Hall].
      intros s Hs. apply sampleInvalid_good in Hs. cbn. by rewrite Hs.
    + split; [|done]. intros _. split; [done|].
      apply mapM_None_1, List.Exists_exists in Hm as (s & Hs & Hn).
      exists s. split; [by apply list_elem_of_In|done].
Qed.

(** Once the index to drop lies behind, the filter keeps everything. *)
Lemma filterIndex_past {A} (l : list A) (index i : nat) :
  (index < i)%nat → filterIndex (λ j, negb (Nat.eqb j index)) i l = l.
Proof.
  revert i. induction l as [|x l IH]; intros i Hi; cbn; [done|].
  destruct (Nat.eqb_spec i index); [lia|]. cbn. f_equal. apply IH. lia.
Qed.

Lemma filterIndex_delete {A} (l : list A) (index i : nat) :
  filterIndex (λ j, negb (Nat.eqb j (i + index))) i l = delete index l.
Proof.
  revert index i. induction l as [|x l IH]; intros index i; cbn; [done|].
  destruct index as [|index].
  - rewrite Nat.add_0_r, Nat.eqb_refl. cbn. apply filterIndex_past. lia.
  - destruct (Nat.eqb_spec i (i + S index)); [lia|]. cbn. f_equal.
    replace (i + S index)%nat with (S i + index)%nat by lia. apply IH.
Qed.

End Validation.

(** ** Editing the form by hand *)

Section FormEdits.

Import PromptTester ErrorHandling Fixtures.

Lemma delete_length_snoc {A} (l : list A) (x : A) :
  delete (length l) (l ++ [x]) = l.
Proof. induction l as [|y l IH]; cbn; [done|]. by f_equal. Qed.

Lemma delete_past_end {A} (l : list A) (i : nat) :
  (length l ≤ i)%nat → delete i l = l.
Proof.
  revert i. induction l as [|y l IH]; intros i Hi; [by destruct i|].
  destruct i as [|i]; cbn in *; [lia|]. f_equal. apply IH. lia.
Qed.

(** X6.  Removing sample number [index] deletes that one sample and keeps
    the others in order; an index past the end removes nothing; and
    removing the last position right after an add gives back the list as
    it was before the add, whether or not the add went through. *)
Theorem handleRemoveSample_delete (index : nat) (s : state) :
  testSamples (handleRemoveSample index s) = delete index (testSamples s)
  ∧ testSamples (handleRemoveSample index s)
    = take index (testSamples s) ++ drop (S index) (testSamples s)
  ∧ testSamples
      (handleRemoveSample (length (testSamples s)) (handleAddSample s).1)
    = testSamples s.
Proof.
  assert (∀ s', testSamples (handleRemoveSample index s')
                = delete index (testSamples s')) as Hdel.
  { intros s'. cbn. apply (filterIndex_delete (testSamples s') index 0). }
  split_and!.
  - apply Hdel.
  - rewrite Hdel. apply delete_take_drop.
  - cbn. rewrite (filterIndex_delete _ (length (testSamples s)) 0).
    unfold handleAddSample.
    destruct (_ && _); [|destruct (Nat.leb _ _)]; cbn [fst testSamples].
    + apply delete_length_snoc.
    + by apply delete_past_end.
    + by apply delete_past_end.
Qed.

Lemma handleAddSample_good (s : state) :
  Forall goodText (testSamples s) →
  Forall goodText (testSamples (handleAddSample s).1).
Proof.
  intros Hall. unfold handleAddSample.
  destruct (negb _) eqn:Ht;
    destruct (Nat.ltb _ _); destruct (Nat.leb _ _);
    cbn [andb fst testSamples]; try done.
  all: apply Forall_app; split; [done|]; constructor; [|constructor].
  all: exists (trim (sampleInput s)); split; [done|].
  all: rewrite trim_idemp; apply negb_true_iff in Ht; by apply eqb_false_ne.
Qed.

Lemma editStep_keeps (s : state) (e : edit) :
  Forall goodText (testSamples s) ∧ (length (testSamples s) ≤ 10)%nat →
  Forall goodText (testSamples (editStep s e))
  ∧ (length (testSamples (editStep s e)) ≤ 10)%nat.
Proof.
  intros [Hgood Hlen]. destruct e as [v| |index|v]; cbn [editStep].
  - done.
  - split; [by apply handleAddSample_good|].
    pose proof (handleAddSample_length s). lia.
  - assert (testSamples (handleRemoveSample index s)
            = delete index (testSamples s)) as ->
      by apply (filterIndex_delete (testSamples s) index 0).
    split.
    + by apply Forall_delete.
    + pose proof (sublist_length _ _ (sublist_delete (testSamples s) index)).
      lia.
  - unfold handlePromptChange.
    by destruct (truthy _); [destruct (indexOf _ _)|].
Qed.

(** X7.  However the form is edited by hand from its initial state
    (typing, adding, removing, editing the prompt box), it holds at most
    10 samples and each has text that is not blank; so a run is refused
    only for a blank prompt or an empty list, and otherwise sends exactly
    the samples on screen. *)
Theorem manual_edits_run (String_of : json → string) (model : string)
    (edits : list edit) :
  let s := foldl editStep initial edits in
  (length (testSamples s) ≤ 10)%nat
  ∧ Forall goodText (testSamples s)
  ∧ (trim (prompt s) ≠ "" → testSamples s ≠ [] →
     prepareRun String_of model s
     = (Valid, Some {| request_prompt := finalPrompt String_of s;
                       request_model := model;
                       test_samples := testSamples s |}))
  ∧ (trim (prompt s) = "" ∨ testSamples s = [] →
     ∃ m, prepareRun String_of model s = (Invalid m, None)).
Proof.
  intros s.
  assert (Forall goodText (testSamples s) ∧ (length (testSamples s) ≤ 10)%nat)
    as [Hgood Hlen].
  { subst s. induction edits as [|e edits IH] using rev_ind.
    - cbn. split; [|lia]. repeat constructor; eexists; split; done.
    - rewrite foldl_app. cbn. by apply editStep_keeps. }
  split_and!; try done.
  - intros Hp Hne. unfold prepareRun, validatePrompt.
    apply eqb_false_ne in Hp. rewrite Hp.
    by rewrite (validateSamples_good (testSamples s)).
  - intros [Hp | Hnil]; unfold prepareRun, validatePrompt.
    + rewrite Hp. cbn. eauto.
    + destruct (String.eqb _ _); [eauto|]. rewrite Hnil. cbn. eauto.
Qed.

End FormEdits.

(** ** The prompt box *)

Section PromptBox.

Import PromptTester Fixtures.

Local Abbreviation newline := (String (Ascii.ascii_of_nat 10) EmptyString).

Lemma substring_0_app (c r : string) :
  String.substring 0 (String.length c) (c +:+ r) = c.
Proof.
  induction c as [|a c IH]; [by destruct r|].
  change (String a c +:+ r) with (String a (c +:+ r)). cbn. by rewrite IH.
Qed.

Lemma substring_all (p : string) :
  String.substring 0 (String.length p) p = p.
Proof. induction p as [|a p IH]; cbn; [done|]. by rewrite IH. Qed.

Lemma substring_skip (c r : string) (m : nat) :
  String.substring (String.length c) m (c +:+ r) = String.substring 0 m r.
Proof.
  induction c as [|a c IH]; [done|].
  change (String a c +:+ r) with (String a (c +:+ r)). cbn. apply IH.
Qed.

Lemma length_app_string (c r : string) :
  String.length (c +:+ r) = (String.length c + String.length r)%nat.
Proof.
  induction c as [|a c IH]; [done|].
  change (String a c +:+ r) with (String a (c +:+ r)). cbn. by rewrite IH.
Qed.

Lemma app_string_assoc (a b c : string) :
  a +:+ b +:+ c = (a +:+ b) +:+ c.
Proof.
  induction a as [|x a IH]; [done|].
  change (String x a +:+ ?r) with (String x (a +:+ r)). by rewrite IH.
Qed.

(** Whether [needle] starts a string depends on as many of its first
    characters as [needle] is long. *)
Lemma prefix_same_start (needle s t : string) :
  String.substring 0 (String.length needle) s
  = String.substring 0 (String.length needle) t →
  String.prefix needle s = String.prefix needle t.
Proof.
  intros H.
  destruct (String.prefix needle s) eqn:Hs, (String.prefix needle t) eqn:Ht;
    try done.
  - apply String.prefix_correct in Hs. rewrite H in Hs.
    apply String.prefix_correct in Hs. congruence.
  - apply String.prefix_correct in Ht. rewrite <- H in Ht.
    apply String.prefix_correct in Ht. congruence.
Qed.

(** The first blank line of [c ++ "\n\n" ++ p] is the separator itself
    when none starts inside [c ++ "\n"]. *)
Lemma indexOf_separator (c p : string) :
  indexOf blankLine (c +:+ newline) = None →
  indexOf blankLine (c +:+ blankLine +:+ p) = Some (String.length c).
Proof.
  induction c as [|a c IH]; intros H.
  - cbn. by destruct p.
  - change (String a c +:+ newline) with (String a (c +:+ newline)) in H.
    change (String a c +:+ blankLine +:+ p)
      with (String a (c +:+ blankLine +:+ p)).
    cbn [indexOf] in H |- *.
    destruct (String.prefix blankLine (String a (c +:+ newline))) eqn:Hp;
      [done|].
    destruct (indexOf blankLine (c +:+ newline)) eqn:Hi; [done|].
    rewrite (IH eq_refl). cbn [fmap option_fmap option_map].
    assert (String.prefix blankLine (String a (c +:+ blankLine +:+ p)) = false)
      as ->; [|done].
    rewrite <- Hp. apply prefix_same_start.
    destruct c as [|b c]; [by destruct p|].
    change (String b c +:+ ?r) with (String b (c +:+ r)). cbn.
    by destruct (c +:+ newline), (c +:+ blankLine +:+ p).
Qed.

(** X8.  With a system context that is a string without a blank line in
    it and without a line break at its end, putting the text the prompt
    box shows back into the box changes nothing: the box splits it at the
    separator into the same context and the same prompt. *)
Theorem prompt_box_round_trip (String_of : json → string) (s : state)
    (c : string) :
  systemContext s = Some (JStr c) → c ≠ "" →
  indexOf blankLine (c +:+ newline) = None →
  finalPrompt String_of s = c +:+ blankLine +:+ prompt s
  ∧ handlePromptChange (finalPrompt String_of s) s = s.
Proof.
  intros Hc Hne Hidx. destruct s as [ctx p samples input]. cbn in Hc. subst ctx.
  assert (truthy (Some (JStr c)) = true) as Ht.
  { cbn. apply negb_true_iff. by apply String.eqb_neq. }
  unfold finalPrompt, handlePromptChange. cbn [systemContext prompt interpolate].
  rewrite Ht. split; [done|].
  rewrite (indexOf_separator c p Hidx).
  cbn [testSamples sampleInput]. f_equal.
  - by rewrite substring_0_app.
  - rewrite !length_app_string.
    replace (String.length c + 2)%nat
      with (String.length (c +:+ blankLine))%nat
      by (rewrite length_app_string; cbn; lia).
    rewrite (app_string_assoc c blankLine p).
    rewrite substring_skip.
    replace (String.length c + (String.length blankLine + String.length p)
             - String.length (c +:+ blankLine))%nat
      with (String.length p)
      by (rewrite length_app_string; lia).
    apply substring_all.
Qed.

End PromptBox.

(** ** The outcome of a run *)

Section RunOutcome.

Import PromptTester Fixtures.

Lemma successes_none (l : list SampleResult) :
  length (filter (λ r, success r) l) = 0%nat ↔ ∀ r, r ∈ l → success r = false.
Proof.
  induction l as [|x l IH].
  - split; [|done]. intros _ r Hr. by apply elem_of_nil in Hr.
  - rewrite filter_cons. destruct (decide (success x)) as [Hx|Hx]; cbn [length].
    + split; [done|]. intros H. specialize (H x (list_elem_of_here _ _)).
      rewrite H in Hx. done.
    + rewrite IH. split.
      * intros H r [->|Hr]%elem_of_cons; [by destruct (success x)|by apply H].
      * intros H r Hr. apply H. by right.
Qed.

Lemma successes_all (l : list SampleResult) :
  length (filter (λ r, success r) l) = length l
  ↔ ∀ r, r ∈ l → success r = true.
Proof.
  induction l as [|x l IH].
  - split; [|done]. intros _ r Hr. by apply elem_of_nil in Hr.
  - rewrite filter_cons. destruct (decide (success x)) as [Hx|Hx]; cbn [length].
    + split.
      * intros [= Heq] r [->|Hr]%elem_of_cons;
          [by apply Is_true_true | by apply IH].
      * intros Hall. f_equal. apply IH. intros r Hr. apply Hall. by right.
    + pose proof (length_filter (λ r, success r) l) as Hle. split; [lia|].
      intros Hall. specialize (Hall x (list_elem_of_here _ _)).
      rewrite Hall in Hx. by destruct Hx.
Qed.

(** X9.  When the backend answers with one result per sample sent (and at
    least one), the toast after a run tells the three outcomes apart: the
    all-failed toast (in its plain or its organization-verification form)
    exactly when no sample succeeded, the all-succeeded toast exactly when
    every sample succeeded, and otherwise the partial toast with the
    number of successes, which then lies strictly between 0 and the
    total. *)
Theorem runOutcomeToast_contract (l : list SampleResult) :
  l ≠ [] →
  let toast := runOutcomeToast (Some l) (length l) in
  let k := length (filter (λ r, success r) l) in
  ((∀ r, r ∈ l → success r = false)
   ↔ toast = VerificationRequiredToast ∨ toast = AllFailedToast (length l))
  ∧ ((∀ r, r ∈ l → success r = true) ↔ toast = AllSucceededToast (length l))
  ∧ (toast = PartialToast k (length l) ∧ (0 < k < length l)%nat
     ∨ (∀ r, r ∈ l → success r = false)
     ∨ (∀ r, r ∈ l → success r = true)).
Proof.
  intros Hne toast k.
  assert (0 < length l)%nat as Hlen by (destruct l; cbn; [done|lia]).
  pose proof (length_filter (λ r, success r) l) as Hk. fold k in Hk.
  pose proof (successes_none l) as Hnone. fold k in Hnone.
  pose proof (successes_all l) as Hall. fold k in Hall.
  rewrite <- Hnone, <- Hall.
  subst toast. unfold runOutcomeToast. fold k.
  destruct (Nat.ltb_spec 0 (length l)); [|lia].
  destruct (Nat.eqb_spec k 0) as [Hz|Hnz]; cbn [andb].
  - destruct (_ || _).
    + split_and!; [split; auto | split; [lia|done] | auto].
    + split_and!; [split; auto | split; [lia|done] | auto].
  - destruct (Nat.ltb_spec k (length l)).
    + split_and!.
      * split; [done|]. by intros [?|?].
      * split; [lia|done].
      * left. split; [done|lia].
    + split_and!.
      * split; [done|]. by intros [?|?].
      * split; [done|lia].
      * right. right. lia.
Qed.

(** The witness for X9: one success and one failure. *)
Lemma runOutcomeToast_contract_witness :
  runOutcomeToast (Some [okSample; failedSample]) 2 = PartialToast 1 2.
Proof.
  destruct (runOutcomeToast_contract [okSample; failedSample])
    as (Hf & Ha & [[H _]|[H|H]]).
  - discriminate.
  - exact H.
  - specialize (H okSample (list_elem_of_here _ _)). discriminate.
  - specialize (H failedSample (list_elem_of_further _ _ _ (list_elem_of_here _ _))).
    discriminate.
Defined.

End RunOutcome.

(** ** Dataset import: the three shapes *)

Section DatasetShapes.

Import PromptTester Fixtures.

Lemma mapM_total {A B} (f : A → option B) (g : A → B) (l : list A) :
  (∀ x, f x = Some (g x)) → mapM f l = Some (g <$> l).
Proof.
  intros H. induction l as [|x l IH]; cbn; [done|]. by rewrite H, IH.
Qed.

(** Settle the comparisons of member names that a lookup leaves. *)
Ltac decide_keys :=
  repeat match goal with
         | |- context [decide (?a = ?b)] =>
             destruct (decide (a = b)) as [?|?]; [try discriminate|try done]
         end.

Lemma mapM_fmap {A B C} (f : B → option C) (g : A → B) (l : list A) :
  mapM f (g <$> l) = mapM (f ∘ g) l.
Proof. induction l as [|x l IH]; cbn; [done|]. by rewrite IH. Qed.

(** X10.  The import normalizes each shape in full.  An array of strings
    gives one sample per string with that text and an empty expected
    answer; [{samples: [...]}] gives one sample per element with the
    element as text, whatever the elements are; [{qa_pairs: [...]}] of
    question/answer objects gives their questions and answers, and leaves
    the system context alone when the document has none.  In every case
    the list on screen is replaced, not extended. *)
Theorem loadDataset_shapes (s : state) :
  (∀ texts : list string,
     loadDataset (JArr ((λ t, JStr t) <$> texts)) s
     = Some (withSamples
               ((λ t, {| text := Some (JStr t);
                         expected_answer := Some (JStr "") |}) <$> texts) s,
             [LoadedToast (length texts)]))
  ∧ (∀ items : list json,
       loadDataset (JObj [("samples", JArr items)]) s
       = Some (withSamples
                 ((λ j, {| text := Some j; expected_answer := None |})
                    <$> items) s,
               [LoadedToast (length items)]))
  ∧ (∀ pairs : list (string * string),
       loadDataset
         (JObj [("qa_pairs",
                 JArr ((λ qa, JObj [("question", JStr qa.1);
                                    ("answer", JStr qa.2)]) <$> pairs))]) s
       = Some (withSamples
                 ((λ qa, {| text := Some (JStr qa.1);
                            expected_answer := Some (JStr qa.2) |}) <$> pairs) s,
               [LoadedToast (length pairs)])).
Proof.
  split_and!.
  - intros texts. unfold loadDataset, get, js_map. cbn.
    rewrite mapM_fmap.
    rewrite (mapM_total _
               (λ t, {| text := Some (JStr t);
                        expected_answer := Some (JStr "") |})) by done.
    cbn. by rewrite !length_fmap.
  - intros items. unfold loadDataset, get, js_map, or_else. cbn.
    decide_keys. cbn.
    rewrite (mapM_total _
               (λ j, {| text := Some j; expected_answer := None |})) by done.
    cbn. by rewrite length_fmap.
  - intros pairs. unfold loadDataset, get, js_map. cbn.
    decide_keys. cbn.
    rewrite mapM_fmap.
    rewrite (mapM_total _
               (λ qa : string * string,
                  {| text := Some (JStr qa.1);
                     expected_answer := Some (JStr qa.2) |})) by done.
    cbn. by rewrite !length_fmap.
Qed.

End DatasetShapes.

Section DatasetImportTwice.

Import PromptTester Fixtures.

Local Arguments get : simpl never.
Local Arguments js_map : simpl never.

Lemma loadDataset_again (doc : json) (s s' : state) (ts : list toast) :
  loadDataset doc s = Some (s', ts) → loadDataset doc s' = Some (s', ts).
Proof.
  unfold loadDataset. intros H.
  destruct (get (Some doc) "qa_pairs") as [qa_pairs|]; [|done].
  cbn in H |- *. destruct (truthy qa_pairs).
  - destruct (js_map qaPairSample qa_pairs) as [samples|]; [|done].
    cbn in H |- *.
    destruct (get (Some doc) "system_context") as [ctx|]; [|done].
    cbn in H |- *. injection H as <- <-. by destruct (truthy ctx).
  - destruct (match doc with JArr _ => _ | _ => _ end) as [samples|]; [|done].
    cbn in H |- *. by injection H as <- <-.
Qed.

(** X11.  Importing the same file twice in a row gives the same form and
    the same toast as importing it once, for every file: the samples, the
    system context and the prompt an import sets depend on the document
    alone. *)
Theorem handleFileUpload_idempotent (f : option file) (s : state) :
  handleFileUpload f (handleFileUpload f s).1 = handleFileUpload f s.
Proof.
  unfold handleFileUpload.
  destruct f as [f|]; [|done].
  destruct (_ || _); [|done].
  destruct (parsed f) as [doc|]; [|done].
  destruct (loadDataset doc s) as [[s' ts]|] eqn:Hload.
  - cbn. by rewrite (loadDataset_again doc s s' ts Hload).
  - cbn. by rewrite Hload.
Qed.

End DatasetImportTwice.

(** ** The rating workflow: sessions, the Save button, the saved accuracy *)

Section RatingSessions.

Import RatingModal Fixtures.

Implicit Types (m : modal) (ev : event).

Lemma step_inSession m ev :
  isOpenEvent ev = false → inSession m → inSession (step m ev).1.
Proof.
  intros Hev [Htimers Hidx]. unfold step.
  destruct ev as [smp|star| | | | |k]; [done|..]; cbn [fst].
  - destruct (view_of m) as [| |s|] eqn:Hv; cbn [fst]; try done.
    apply render_Reviewing in Hv as [_ Hs]. apply lookup_lt_Some in Hs.
    split; [|by left]. cbn. intros i k [Hin|Hin]%elem_of_app.
    + by apply Htimers.
    + apply list_elem_of_singleton in Hin. by injection Hin as -> ->.
  - destruct (view_of m); cbn [fst]; try done.
    unfold handleNext. destruct (Z.ltb_spec (Z.of_nat (currentIndex (st m)))
      (Z.of_nat (length (successfulSamples (samples m))) - 1)); [|done].
    split; [done|]. left. cbn. lia.
  - destruct (view_of m); cbn [fst]; try done.
    unfold handlePrevious. destruct (Z.ltb_spec 0 (Z.of_nat (currentIndex (st m))));
      [|done].
    split; [done|]. cbn. destruct Hidx; [left; lia|by right].
  - destruct (view_of m); cbn [fst]; try done.
    by destruct (calls_onClose _).
  - by destruct (view_of m).
  - assert (inSession
              (match timers (st m) !! k with
               | Some (i, n) =>
                   (with_state m
                      (timerCallback i n
                         {| currentIndex := currentIndex (st m);
                            ratings := ratings (st m);
                            timers := delete k (timers (st m)) |}),
                    @nil effect)
               | None => (m, [])
               end).1) as Hfire.
    { destruct (timers (st m) !! k) as [[i n]|] eqn:Hk; cbn [fst]; [|done].
      assert ((i, n) ∈ timers (st m)) as Hin
        by by eapply list_elem_of_lookup_2.
      destruct (Htimers i n Hin) as [-> Hi].
      assert (∀ i' k', (i', k') ∈ delete k (timers (st m)) →
                k' = length (successfulSamples (samples m))
                ∧ (i' < length (successfulSamples (samples m)))%nat) as Hdel.
      { intros i' k' Hin'. apply Htimers. by eapply list_elem_of_delete_inv. }
      unfold timerCallback.
      destruct (Z.ltb_spec (Z.of_nat i)
                  (Z.of_nat (length (successfulSamples (samples m))) - 1)).
      + split; [done|]. left. cbn. lia.
      + by split. }
    by destruct (view_of m).
Qed.

Lemma inSession_not_throws m : inSession m → view_of m ≠ RenderThrows.
Proof.
  intros [_ Hidx]. unfold view_of, render.
  destruct (negb (isOpen m) || _) eqn:Hc; [by destruct (_ && _)|].
  apply orb_false_iff in Hc as [_ Hn]. apply Nat.eqb_neq in Hn.
  destruct Hidx as [Hlt|]; [|done].
  apply lookup_lt_is_Some in Hlt as [s ->]. done.
Qed.

Lemma run_inSession m (evs : list event) :
  Forall (λ ev, isOpenEvent ev = false) evs → inSession m →
  inSession (run m evs).
Proof.
  intros Hevs Hm. unfold run.
  induction evs as [|ev evs IH] using rev_ind; [done|].
  apply Forall_app in Hevs as [Hevs Hev].
  apply List.Forall_cons_iff in Hev as [Hev _].
  rewrite foldl_app. cbn. apply step_inSession; [done|by apply IH].
Qed.

Lemma firstRender_throws m (smp : option (list SampleResult)) :
  view_of (firstRender smp m) = RenderThrows
  ↔ successfulSamples smp ≠ []
    ∧ (length (successfulSamples smp) ≤ currentIndex (st m))%nat.
Proof.
  unfold view_of, firstRender. cbn [isOpen samples st].
  rewrite render_RenderThrows. split; [by intros (_ & ? & ?)|by intros [? ?]].
Qed.

Lemma openEffect_inSession m (smp : option (list SampleResult)) :
  timers (st m) = [] → inSession (openEffect (firstRender smp m)).
Proof.
  intros Htm. split.
  - cbn. rewrite Htm. intros i k Hik. by apply elem_of_nil in Hik.
  - cbn. destruct (successfulSamples smp); [by right|left; cbn; lia].
Qed.

Lemma openEffect_not_throws m (smp : option (list SampleResult)) :
  view_of (openEffect (firstRender smp m)) ≠ RenderThrows.
Proof.
  intros Ht. apply render_RenderThrows in Ht as (_ & Hne & Hle).
  cbn in Hne, Hle. destruct (successfulSamples smp); [done|cbn in Hle; lia].
Qed.

(** X12.  Opening a closed modal renders once with the index the modal
    was left with: that render throws exactly when the new results have a
    successful sample and the old index is at or past the end of the new
    successful samples; otherwise the effect resets the index and the
    ratings.  From there, with no timer of an earlier session pending,
    whatever is clicked and whenever the auto-advance timers fire, as long
    as the modal is not opened again: the index on screen stays within the
    successful samples and the dialog never fails to render.  A timer
    left pending by an earlier session breaks this: the dialog is on
    screen, the timer moves the index past the end of the shorter list,
    and the render throws. *)
Theorem session_index_in_range (m0 : modal)
    (smp : option (list SampleResult)) (evs : list event) :
  isOpen m0 = false →
  let ss := successfulSamples smp in
  let m1 := (step m0 (Open smp)).1 in
  (view_of m1 = RenderThrows
   ↔ ss ≠ [] ∧ (length ss ≤ currentIndex (st m0))%nat)
  ∧ (view_of m1 ≠ RenderThrows →
     samples m1 = smp ∧ currentIndex (st m1) = 0%nat ∧ ratings (st m1) = ∅)
  ∧ (view_of m1 ≠ RenderThrows → timers (st m0) = [] →
     Forall (λ ev, isOpenEvent ev = false) evs →
     let m := run m1 evs in
     view_of m ≠ RenderThrows
     ∧ ((currentIndex (st m) < length (successfulSamples (samples m)))%nat
        ∨ successfulSamples (samples m) = []))
  ∧ view_of (run closed staleReopen) = RenderThrows
  ∧ view_of (run closed (take 4 lateTimer)) = Reviewing okSample
  ∧ view_of (run closed lateTimer) = RenderThrows.
Proof.
  intros Hc ss m1.
  assert (view_of (firstRender smp m0) = RenderThrows
          ∨ view_of (firstRender smp m0) ≠ RenderThrows) as [Ht|Hnt]
    by (destruct (view_of (firstRender smp m0)); auto).
  - assert (m1 = firstRender smp m0) as Hm1
      by (subst m1; by rewrite step_Open_throws).
    rewrite Hm1. split_and!; try reflexivity; try done.
    split; [|done]. intros _. by apply firstRender_throws.
  - assert (m1 = openEffect (firstRender smp m0)) as Hm1
      by (subst m1; by rewrite step_Open_renders).
    rewrite Hm1. split_and!; try reflexivity.
    + split.
      * intros Ht. by destruct (openEffect_not_throws m0 smp).
      * intros Hold. destruct Hnt. by apply firstRender_throws.
    + done.
    + intros _ Htm Hevs m.
      assert (inSession m) as Hin
        by (apply run_inSession; [done|by apply openEffect_inSession]).
      split; [by apply inSession_not_throws|].
      destruct Hin as [_ [?|Hz]]; [by left|right].
      by apply length_zero_iff_nil.
Qed.

(** X13.  In every reachable state with the rating dialog on screen, the
    Save button is rendered exactly when every index is rated, and a click
    on it then always emits the ratings with their accuracy, shows the
    success toast and closes; so the "rate all samples" toast cannot be
    produced through the button. *)
Theorem save_button_iff_total m s :
  reachable m → view_of m = Reviewing s →
  let ss := successfulSamples (samples m) in
  (saveButtonVisible ss (st m) = true ↔ total ss (ratings (st m)))
  ∧ (saveButtonVisible ss (st m) = true →
     step m ClickSave
     = (close m,
        [OnSaveRatings (ratings (st m)) (averageAccuracy ss (ratings (st m)));
         ToastSuccess (averageAccuracy ss (ratings (st m))); OnClose])
     ∧ (∃ a, OnSaveRatings (ratings (st m)) a ∈ (step m ClickSave).2)
     ∧ OnClose ∈ (step m ClickSave).2
     ∧ ∀ n, ToastError n ∉ (step m ClickSave).2).
Proof.
  intros Hreach Hv ss.
  pose proof (reachable_ratings_in_range m Hreach
                (Reviewing_not_throws m s Hv)) as Hinv.
  destruct (total_save_step m s Hreach Hv) as [Hsave Hsize].
  assert (saveButtonVisible ss (st m) = true ↔ total ss (ratings (st m)))
    as Hiff.
  { unfold saveButtonVisible. rewrite Nat.eqb_eq. split; [|apply Hsize].
    intros Heq. apply total_unrated. rewrite unrated_size; [unfold ss in *; lia|].
    intros i [v Hi]. by apply (Hinv i v). }
  split; [done|]. intros Hvis. apply Hiff in Hvis.
  rewrite (Hsave Hvis). split_and!; [done| | |].
  - eexists. apply list_elem_of_here.
  - cbn. do 2 apply list_elem_of_further. apply list_elem_of_here.
  - intros n Hn.
    repeat (apply elem_of_cons in Hn as [Hn|Hn]; [done|]).
    by apply elem_of_nil in Hn.
Qed.

Lemma ratings_sum_bounds (l : list Z) :
  (∀ v, v ∈ l → 1 ≤ v ≤ 5)%Z →
  (Z.of_nat (length l) ≤ foldr Z.add 0 l ≤ 5 * Z.of_nat (length l))%Z.
Proof.
  induction l as [|x l IH]; intros H; cbn [foldr length]; [lia|].
  pose proof (H x (list_elem_of_here _ _)).
  assert (∀ v, v ∈ l → 1 ≤ v ≤ 5)%Z as Hl by (intros v Hv; apply H; by right).
  specialize (IH Hl). lia.
Qed.

Lemma totalRating_bounds (r : gmap nat Z) :
  (∀ i v, r !! i = Some v → 1 ≤ v ≤ 5)%Z →
  (Z.of_nat (size r) ≤ totalRating r ≤ 5 * Z.of_nat (size r))%Z.
Proof.
  intros H. unfold totalRating. rewrite foldl_add_foldr, Z.add_0_l.
  rewrite <- (length_map_to_list r), <- (length_fmap snd (map_to_list r)).
  apply ratings_sum_bounds. intros v Hv.
  apply list_elem_of_fmap in Hv as ([i v'] & -> & Hin).
  apply elem_of_map_to_list in Hin. by apply (H i v').
Qed.

Lemma Qc_of_Z_lt (a b : Z) : (a < b)%Z → Qc_of_Z a < Qc_of_Z b.
Proof. apply Z2Qc_inj_lt. Qed.

Lemma Qc_of_Z_le (a b : Z) : (a ≤ b)%Z → Qc_of_Z a ≤ Qc_of_Z b.
Proof. apply Z2Qc_inj_le. Qed.

(** Twenty times a mean of values between 1 and 5. *)
Lemma scaled_mean_bounds (total n : Z) :
  (0 < n)%Z → (n ≤ total ≤ 5 * n)%Z →
  Qc_of_Z 20 ≤ Qc_of_Z total / Qc_of_Z n * Qc_of_Z 20 ≤ Qc_of_Z 100.
Proof.
  intros Hn [Hlo Hhi].
  assert (0 < Qc_of_Z n) as Hpos
    by (rewrite <- Z2Qc_inj_0; by apply Qc_of_Z_lt).
  assert (Qc_of_Z n ≠ 0) as Hnz.
  { intros Hz. rewrite Hz in Hpos. exact (Qclt_irrefl _ Hpos). }
  assert (Qc_of_Z total / Qc_of_Z n * Qc_of_Z 20 * Qc_of_Z n
          = Qc_of_Z (total * 20)) as Hmul.
  { rewrite Z2Qc_inj_mul. field. done. }
  split; apply (Qcmult_lt_0_le_reg_r _ _ (Qc_of_Z n) Hpos); rewrite Hmul,
    <- Z2Qc_inj_mul; apply Qc_of_Z_le; lia.
Qed.

Lemma averageAccuracy_rated m s :
  reachable m → view_of m = Reviewing s →
  total (successfulSamples (samples m)) (ratings (st m)) →
  let ss := successfulSamples (samples m) in
  let a := averageAccuracy ss (ratings (st m)) in
  a = Qc_of_Z (totalRating (ratings (st m)))
      / Qc_of_Z (Z.of_nat (length ss)) * Qc_of_Z 20
  ∧ Qc_of_Z 20 ≤ a ≤ Qc_of_Z 100
  ∧ num_truthy a = true ∧ 0 < a.
Proof.
  intros Hreach Hv Htotal ss a.
  pose proof (reachable_ratings_in_range m Hreach
                (Reviewing_not_throws m s Hv)) as Hinv.
  destruct (total_save_step m s Hreach Hv) as [_ Hsize].
  specialize (Hsize Htotal).
  assert (0 < length ss)%nat as Hlen.
  { apply render_Reviewing in Hv as [_ Hs]. apply lookup_lt_Some in Hs.
    unfold ss. lia. }
  pose proof (totalRating_bounds (ratings (st m))
                (λ i v Hi, proj2 (Hinv i v Hi))) as Hsum.
  rewrite Hsize in Hsum. fold ss in Hsum.
  pose proof (scaled_mean_bounds (totalRating (ratings (st m)))
                (Z.of_nat (length ss)) ltac:(lia) Hsum) as [Hlo Hhi].
  assert (a = Qc_of_Z (totalRating (ratings (st m)))
              / Qc_of_Z (Z.of_nat (length ss)) * Qc_of_Z 20) as Ha.
  { subst a. unfold averageAccuracy. rewrite Math_clamp. unfold clamp_spec.
    destruct (decide (_ < Qc_of_Z 0)) as [Hneg|_].
    - exfalso. apply (Qclt_irrefl (Qc_of_Z 20)).
      eapply Qcle_lt_trans; [exact Hlo|].
      eapply Qclt_trans; [exact Hneg|]. by apply Qc_of_Z_lt.
    - destruct (decide (Qc_of_Z 100 < _)) as [Hbig|_]; [|done].
      exfalso. apply (Qclt_irrefl (Qc_of_Z 100)).
      eapply Qclt_le_trans; [exact Hbig|exact Hhi]. }
  rewrite Ha. split_and!; try done.
  - apply num_truthy_spec. intros Hz. rewrite Hz in Hlo.
    apply (Qclt_irrefl 0). eapply Qclt_le_trans; [|exact Hlo].
    rewrite <- Z2Qc_inj_0. by apply Qc_of_Z_lt.
  - eapply Qclt_le_trans; [|exact Hlo].
    rewrite <- Z2Qc_inj_0. by apply Qc_of_Z_lt.
Qed.

(** X14.  Whenever a save goes through in a reachable state, the accuracy
    it emits is exactly twenty times the mean of the stars, lies between
    20 and 100 (the clamp never cuts), and so is never 0. *)
Theorem saved_accuracy_bounds m s :
  reachable m → view_of m = Reviewing s →
  total (successfulSamples (samples m)) (ratings (st m)) →
  let ss := successfulSamples (samples m) in
  let a := averageAccuracy ss (ratings (st m)) in
  a = Qc_of_Z (totalRating (ratings (st m)))
      / Qc_of_Z (Z.of_nat (length ss)) * Qc_of_Z 20
  ∧ Qc_of_Z 20 ≤ a ≤ Qc_of_Z 100
  ∧ num_truthy a = true ∧ 0 < a.
Proof. apply averageAccuracy_rated. Qed.

End RatingSessions.

(** ** The history list and the rating it shows *)

Section HistoryRows.

Import RatingModal ExperimentHistory Fixtures.

Lemma shown_sample_succeeded (m : modal) (s : SampleResult) :
  view_of m = Reviewing s →
  ∃ l, samples m = Some l ∧ s ∈ l ∧ success s = true.
Proof.
  intros Hv. apply render_Reviewing in Hv as [_ Hs].
  destruct (samples m) as [l|]; [|done]. exists l. split; [done|].
  apply list_elem_of_lookup_2 in Hs.
  by apply elem_of_successfulSamples in Hs.
Qed.

Lemma allFailed_with_success (e : Experiment) (l : list SampleResult)
    (s : SampleResult) :
  sample_results e = Some l → s ∈ l → success s = true → allFailed e = false.
Proof.
  intros Hl Hs Hok. unfold allFailed. rewrite Hl.
  apply andb_false_iff. left. apply Nat.eqb_neq.
  assert (length (filter (λ x, negb (success x)) l) < length l)%nat; [|lia].
  apply (length_filter_lt _ _ s); [done|]. rewrite Hok. cbn. tauto.
Qed.

(** X15.  A rating completed in the dialog that the history list opened
    for the selected experiment always shows on that experiment's row:
    the save emits an accuracy, [handleSaveRatings] files it in the overlay
    under the experiment's id, and the row's badge becomes that accuracy
    (not "Not rated yet", not the all-failed notice). *)
Theorem completed_rating_shows (hs : ExperimentHistory.state)
    (sel : HistoryExperiment) (m : modal) (s : SampleResult) :
  selectedExperiment hs = Some sel → sel ∈ experiments hs →
  reachable m → samples m = sample_results (exp sel) →
  view_of m = Reviewing s →
  total (successfulSamples (samples m)) (ratings (st m)) →
  ∃ a hs',
    (step m ClickSave).2
    = [OnSaveRatings (ratings (st m)) a; ToastSuccess a; OnClose]
    ∧ ExperimentHistory.handleSaveRatings (ratings (st m)) a hs = Some hs'
    ∧ manualRatings hs' !! experiment_id (exp sel)
      = Some {| ManualRating.ratings := ratings (st m);
                ManualRating.accuracy := a |}
    ∧ ∃ row, row ∈ experiments hs' ∧ exp row = exp sel
             ∧ accuracyBadge row = AccuracyBadge a.
Proof.
  intros Hsel Hin Hreach Hsamples Hv Htotal.
  destruct (total_save_step m s Hreach Hv) as [Hsave _].
  destruct (averageAccuracy_rated m s Hreach Hv Htotal) as (_ & _ & Htruthy & _).
  set (a := averageAccuracy (successfulSamples (samples m)) (ratings (st m)))
    in *.
  exists a. eexists. split_and!.
  - by rewrite (Hsave Htotal).
  - unfold ExperimentHistory.handleSaveRatings. by rewrite Hsel.
  - cbn. by rewrite lookup_insert_eq.
  - exists {| exp := exp sel; manual_accuracy := Some a;
              original_accuracy := original_accuracy sel |}.
    split_and!; [|done|].
    + cbn. apply list_elem_of_fmap. exists sel. split; [|done].
      by rewrite bool_decide_eq_true_2.
    + unfold accuracyBadge. cbn.
      destruct (shown_sample_succeeded m s Hv) as (l & Hl & Hs & Hok).
      rewrite Hsamples in Hl.
      by rewrite (allFailed_with_success (exp sel) l s Hl Hs Hok), Htruthy.
Qed.

(** X16.  The rows of the history list agree with the overlay the
    component holds: a fetch that answers builds rows that agree, saving a
    rating keeps the agreement, and so does a bulk clear. *)
Theorem rowsAgree_kept (hs : ExperimentHistory.state) :
  (∀ data, rowsAgree (fetchExperiments (Resolved data) hs))
  ∧ (rowsAgree hs →
     ∀ r a hs', ExperimentHistory.handleSaveRatings r a hs = Some hs' →
                rowsAgree hs')
  ∧ (rowsAgree hs →
     ∀ confirmed succeeds srv ls,
       rowsAgree
         (history
            (handleClearExperiments confirmed succeeds
               {| server_experiments := srv; localStorage := ls;
                  history := hs |}).1)).
Proof.
  split_and!.
  - intros data h Hh. cbn in Hh.
    apply list_elem_of_fmap in Hh as (e & -> & _). cbn.
    by rewrite mergeManualRating_manual, mergeManualRating_exp.
  - intros Hagree r a hs' Hsave h Hh.
    unfold ExperimentHistory.handleSaveRatings in Hsave.
    destruct (selectedExperiment hs) as [sel|]; [|done].
    injection Hsave as <-. cbn in Hh |- *.
    apply list_elem_of_fmap in Hh as (h0 & -> & Hh0).
    case_bool_decide as Hid; cbn.
    + by rewrite Hid, lookup_insert_eq.
    + rewrite lookup_insert_ne by done. by apply Hagree.
  - intros Hagree [|] [|] srv ls h Hh; cbn in Hh |- *;
      try (by apply elem_of_nil in Hh); by apply Hagree.
Qed.

End HistoryRows.

(** ** Which sample a star belongs to, and how the dialog is entered *)

Section RowsAndEntry.

Import RatingModal Fixtures.

Lemma successful_prefix (l : list SampleResult) (idx : nat) :
  (∀ j s, (j ≤ idx)%nat → l !! j = Some s → success s = true) →
  successfulSamples (Some l) !! idx = l !! idx.
Proof.
  cbn. revert idx. induction l as [|x l IH]; intros idx H; [done|].
  rewrite filter_cons.
  destruct (decide (success x)) as [Hx|Hx].
  - destruct idx as [|idx]; [done|]. cbn. apply IH.
    intros j s Hj Hs. apply (H (S j)); [lia|done].
  - specialize (H 0%nat x ltac:(lia) eq_refl). rewrite H in Hx. by destruct Hx.
Qed.

(** X17.  An expanded history row labels sample number [idx] of all the
    results with the star filed under key [idx], while the dialog files
    stars under the index within the successful samples.  The two agree
    for a sample with no failed sample at or before it; after a failed
    sample they do not: in a run that failed first and then succeeded, the
    five stars given to the second sample are shown on the failed first
    one, and the rated sample shows its computed match. *)
Theorem sample_label_alignment (l : list SampleResult) (idx : nat) :
  ((∀ j s, (j ≤ idx)%nat → l !! j = Some s → success s = true) →
   successfulSamples (Some l) !! idx = l !! idx)
  ∧ (∀ R e mr v sample,
       R !! experiment_id e = Some mr →
       ManualRating.ratings mr !! idx = Some v → v ≠ 0%Z →
       ExperimentHistory.sampleLabelAt R e idx sample
       = ExperimentHistory.StarLabel (v * 20) v)
  ∧ successfulSamples (sample_results failedThenOk) !! 0%nat = Some okSample
  ∧ ExperimentHistory.sampleLabelAt fiveStars failedThenOk 0 failedSample
    = ExperimentHistory.StarLabel 100 5
  ∧ ExperimentHistory.sampleLabelAt fiveStars failedThenOk 1 okSample
    = ExperimentHistory.MatchLabel (sample_accuracy okSample).
Proof.
  split_and!; try reflexivity.
  - apply successful_prefix.
  - intros R e mr v sample HR Hv Hnz.
    unfold ExperimentHistory.sampleLabelAt. rewrite HR, Hv.
    by destruct (Z.eqb_spec v 0).
Qed.



End RowsAndEntry.

(** ** Stored keys and request headers *)

Section ApiKeys.

Import ApiKeySettings.

(** X19.  Saving the keys and loading them again gives the same three
    keys, and touches no other item of the storage; a request then
    carries the header of a provider exactly when its saved key is not
    empty, with that key as its value (an empty key leaves the header as
    it was). *)
Theorem saved_keys_round_trip (keys : ApiKeys) (ls : KeyStorage)
    (headers : gmap string string) :
  loadKeys (handleSaveKeys keys ls) = keys
  ∧ (∀ item, item ≠ "openai_api_key" → item ≠ "anthropic_api_key" →
             item ≠ "together_api_key" →
             handleSaveKeys keys ls !! item = ls !! item)
  ∧ addKeyHeaders (handleSaveKeys keys ls) headers !! "X-OpenAI-API-Key"
    = (if String.eqb (openai keys) "" then headers !! "X-OpenAI-API-Key"
       else Some (openai keys))
  ∧ addKeyHeaders (handleSaveKeys keys ls) headers !! "X-Anthropic-API-Key"
    = (if String.eqb (anthropic keys) "" then headers !! "X-Anthropic-API-Key"
       else Some (anthropic keys))
  ∧ addKeyHeaders (handleSaveKeys keys ls) headers !! "X-Together-API-Key"
    = (if String.eqb (together keys) "" then headers !! "X-Together-API-Key"
       else Some (together keys)).
Proof.
  assert (handleSaveKeys keys ls !! "openai_api_key" = Some (openai keys))
    as Ho by (unfold handleSaveKeys; by simplify_map_eq).
  assert (handleSaveKeys keys ls !! "anthropic_api_key" = Some (anthropic keys))
    as Ha by (unfold handleSaveKeys; by simplify_map_eq).
  assert (handleSaveKeys keys ls !! "together_api_key" = Some (together keys))
    as Ht by (unfold handleSaveKeys; by simplify_map_eq).
  split_and!.
  - unfold loadKeys. rewrite Ho, Ha, Ht. by destruct keys.
  - intros item ? ? ?. unfold handleSaveKeys. by simplify_map_eq.
  - unfold addKeyHeaders. rewrite Ho, Ha, Ht.
    destruct (String.eqb (openai keys) ""), (String.eqb (anthropic keys) ""),
      (String.eqb (together keys) ""); by simplify_map_eq.
  - unfold addKeyHeaders. rewrite Ho, Ha, Ht.
    destruct (String.eqb (openai keys) ""), (String.eqb (anthropic keys) ""),
      (String.eqb (together keys) ""); by simplify_map_eq.
  - unfold addKeyHeaders. rewrite Ho, Ha, Ht.
    destruct (String.eqb (openai keys) ""), (String.eqb (anthropic keys) ""),
      (String.eqb (together keys) ""); by simplify_map_eq.
Qed.

Lemma length_glyphs (s : string) : length (glyphs s) = String.length s.
Proof.
  unfold glyphs. rewrite length_fmap.
  induction s as [|c s IH]; cbn; [done|]. by rewrite IH.
Qed.

Lemma length_substring (n k : nat) (s : string) :
  (n + k ≤ String.length s)%nat → String.length (String.substring n k s) = k.
Proof.
  revert n k. induction s as [|c s IH]; intros n k H; cbn in H.
  - by destruct n, k; cbn; try lia.
  - destruct n as [|n]; [destruct k as [|k]|]; cbn; [done| |].
    + f_equal. apply IH. lia.
    + apply IH. lia.
Qed.

Lemma shown_glyphs (s : string) :
  length (filter (λ g, isShown g) (glyphs s)) = String.length s.
Proof.
  unfold glyphs. induction s as [|c s IH]; [done|].
  cbn [String.list_ascii_of_string fmap list_fmap String.length].
  rewrite filter_cons_True by done. cbn. f_equal. apply IH.
Qed.

Lemma shown_bullets (n : nat) :
  filter (λ g, isShown g) (replicate n Bullet) = [].
Proof.
  induction n as [|n IH]; [done|]. cbn [replicate].
  rewrite filter_cons_False; [done|]. cbn. tauto.
Qed.

(** X20.  A masked key is empty for no key, eight bullets for a key of up
    to 8 characters, and otherwise twelve glyphs of which eight are the
    key's own; so it never shows all the characters of a key. *)
Theorem maskKey_hides (key : string) :
  (key = "" → maskKey key = [])
  ∧ (key ≠ "" → (String.length key ≤ 8)%nat → maskKey key = replicate 8 Bullet)
  ∧ ((8 < String.length key)%nat →
     length (maskKey key) = 12%nat
     ∧ length (filter (λ g, isShown g) (maskKey key)) = 8%nat)
  ∧ (key ≠ "" →
     (length (filter (λ g, isShown g) (maskKey key)) < String.length key)%nat).
Proof.
  assert ((8 < String.length key)%nat →
          length (maskKey key) = 12%nat
          ∧ length (filter (λ g, isShown g) (maskKey key)) = 8%nat) as Hlong.
  { intros Hlen. unfold maskKey.
    destruct (String.eqb_spec key ""); [subst; cbn in Hlen; lia|].
    destruct (Nat.leb_spec (String.length key) 8); [lia|].
    rewrite !length_app, !list.filter_app, !length_app, shown_bullets,
      !shown_glyphs, !length_glyphs, length_replicate.
    rewrite !length_substring by lia. done. }
  split_and!.
  - by intros ->.
  - intros Hne Hlen. unfold maskKey.
    destruct (String.eqb_spec key ""); [done|].
    by destruct (Nat.leb_spec (String.length key) 8); [|lia].
  - exact Hlong.
  - intros Hne.
    destruct (Nat.leb_spec (String.length key) 8) as [Hshort|Hl].
    + unfold maskKey. destruct (String.eqb_spec key ""); [done|].
      destruct (Nat.leb_spec (String.length key) 8); [|lia].
      rewrite shown_bullets. cbn. destruct key; [done|cbn; lia].
    + destruct (Hlong Hl) as [_ ->]. lia.
Qed.

End ApiKeys.

(** ** The retry helper for any bound *)

Section RetryGeneral.

Import ErrorHandler.

Context {A : Type}.

Lemma totalWait_schedule (delay : Z) (i k : nat) :
  (2 * totalWait (schedule delay i k)
   = delay * (Z.of_nat k * (2 * Z.of_nat i + Z.of_nat k + 1)))%Z.
Proof.
  revert i. induction k as [|k IH]; intros i; cbn [schedule totalWait foldr].
  - lia.
  - fold (totalWait (schedule delay (S i) k)). specialize (IH (S i)). nia.
Qed.

(** X21.  For any bound [maxRetries] the helper calls the operation at
    most that many times, and with bound 0 not at all: it then throws
    [undefined].  When every attempt fails with an error it goes on
    after, it makes all [maxRetries] attempts, throws the error of the
    last one, and has waited [delay * maxRetries * (maxRetries - 1) / 2]
    in total. *)
Theorem retryOperation_any_bound (op : operation A) (maxRetries : nat)
    (delay : Z) :
  (calls (retryOperation op maxRetries delay).1 ≤ maxRetries)%nat
  ∧ retryOperation op 0 delay = ([], Throws Nullish)
  ∧ (∀ errs,
       (0 < maxRetries)%nat →
       (∀ j, (j < maxRetries)%nat → op j = Fails (errs j) ∧ transient (errs j)) →
       (retryOperation op maxRetries delay).2
       = Throws (errs (maxRetries - 1)%nat)
       ∧ calls (retryOperation op maxRetries delay).1 = maxRetries
       ∧ (2 * totalWait (retryOperation op maxRetries delay).1
          = delay * (Z.of_nat maxRetries * (Z.of_nat maxRetries - 1)))%Z).
Proof.
  split_and!.
  - apply retryOperation_calls_le.
  - reflexivity.
  - intros errs Hpos Hop. unfold retryOperation.
    destruct maxRetries as [|n]; [lia|].
    rewrite (retryLoop_all_transient op (S n) delay errs n 0 Nullish)
      by (lia || done).
    cbn [fst snd]. split_and!; [done| |].
    + apply calls_schedule.
    + rewrite totalWait_schedule. lia.
Qed.

End RetryGeneral.

(** ** The summary banner of a result *)

Section SummaryBanner.

Import ResultsView Fixtures.

Lemma success_fail_partition (l : list SampleResult) :
  (successCount l + failCount l = length l)%nat.
Proof.
  unfold successCount, failCount. induction l as [|x l IH]; [done|].
  rewrite !filter_cons.
  destruct (decide (success x)) as [H1|H1],
    (decide (negb (success x))) as [H2|H2]; cbn [length]; try lia.
  - destruct (success x); [by destruct H2|by destruct H1].
  - destruct (success x); [by destruct H1|by destruct H2].
Qed.

Lemma summary_none (l : list SampleResult) :
  summary l = None ↔ ∀ s, s ∈ l → success s = true.
Proof.
  unfold summary. pose proof (success_fail_partition l) as Hpart.
  rewrite <- successes_all. fold (successCount l).
  destruct (Nat.ltb_spec 0 (failCount l)); split; try done; lia.
Qed.

Lemma summary_some (l : list SampleResult) (k n : nat) :
  summary l = Some (k, n) →
  n = length l ∧ (k < n)%nat ∧ k = successCount l
  ∧ ((∀ s, s ∈ l → success s = false) → k = 0%nat).
Proof.
  unfold summary. pose proof (success_fail_partition l) as Hpart.
  destruct (Nat.ltb_spec 0 (failCount l)); [|done].
  intros [= <- <-]. split_and!; [done|lia|done|].
  intros Hnone. by apply successes_none.
Qed.

Lemma summary_failed (l : list SampleResult) (k n : nat) :
  summary l = Some (k, n) → ∃ s, s ∈ l ∧ success s = false.
Proof.
  unfold summary, failCount.
  destruct (filter (λ s, negb (success s)) l) as [|s f] eqn:Hf; [done|].
  intros _. exists s.
  assert (s ∈ filter (λ s, negb (success s)) l) as Hin
    by (rewrite Hf; apply list_elem_of_here).
  apply list_elem_of_filter in Hin as [Hn Hin]. split; [done|].
  by destruct (success s).
Qed.

(** X22.  A result without [estimated_cost] is never shown: the render
    throws.  With it, the "Partial Success" box appears exactly when some
    sample failed; it then gives the number of successes out of all the
    samples, a number below the total that is 0 when every sample failed
    (the box still reads "Partial Success" then). *)
Theorem partialBanner_shown (e : Experiment) (l : list SampleResult) :
  sample_results e = Some l →
  (render false (Some e) = PageThrows ↔ estimated_cost e = None)
  ∧ (render false (Some e) = Page None
     ↔ is_Some (estimated_cost e) ∧ ∀ s, s ∈ l → success s = true)
  ∧ (render false (Some e) = Page (Some (successCount l, length l))
     ↔ is_Some (estimated_cost e) ∧ ∃ s, s ∈ l ∧ success s = false)
  ∧ (∀ k n, render false (Some e) = Page (Some (k, n)) →
            n = length l ∧ (k < n)%nat ∧ k = successCount l
            ∧ ((∀ s, s ∈ l → success s = false) → k = 0%nat)).
Proof.
  intros Hl. unfold render. cbn. rewrite Hl.
  destruct (estimated_cost e) as [c|].
  - split_and!.
    + split; discriminate.
    + rewrite <- summary_none. split.
      * intros [= Hs]. eauto.
      * intros [_ Hs]. by rewrite Hs.
    + split.
      * intros [= Hs]. split; [eauto|]. by apply (summary_failed l _ _ Hs).
      * intros [_ (s & Hs & Hf)].
        destruct (summary l) as [[k n]|] eqn:Hsum.
        -- apply summary_some in Hsum as (-> & _ & -> & _). done.
        -- pose proof (proj1 (summary_none l) Hsum s Hs) as Hok.
           rewrite Hok in Hf. done.
    + intros k n [= Hs]. by apply summary_some.
  - split_and!.
    + done.
    + split; [discriminate|]. by intros [[? [=]] _].
    + split; [discriminate|]. by intros [[? [=]] _].
    + discriminate.
Qed.

End SummaryBanner.

(** ** Concrete cases of the properties above *)

Section ConcreteCases.

Import Fixtures.

(** The witness for X1. *)
Lemma handleError_type_witness :
  ErrorHandling.type unauthorizedReport = ErrorHandling.AUTH_ERROR.
Proof.
  refine (proj2 (proj1 (handleError_type ErrorHandling.noText
                          ErrorHandling.noText unauthorized unauthorizedReport
                          (PromptTester.JStr "Invalid API key",
                           ErrorHandling.LockIcon) _)) _).
  - reflexivity.
  - eexists. split; [reflexivity|]. left. reflexivity.
Defined.

(** The witness for X3. *)
Lemma noRetry_vs_error_type_witness :
  ErrorHandling.getErrorTypeFromStatus 401 = ErrorHandling.VALIDATION_ERROR
  ∨ ErrorHandling.getErrorTypeFromStatus 401 = ErrorHandling.AUTH_ERROR.
Proof. refine (proj1 (noRetry_vs_error_type 401) _). reflexivity. Defined.

(** The witness for X4. *)
Lemma validateApiKey_accepts_witness :
  ErrorHandling.validateApiKey "sk-ant-api03-abc" "OpenAI" = ErrorHandling.Valid.
Proof.
  refine (proj1 (validateApiKey_accepts "sk-ant-api03-abc" "Anthropic") _).
  reflexivity.
Defined.

(** The witness for X5. *)
Lemma validateSamples_outcomes_witness :
  ErrorHandling.validateSamples []
  = ErrorHandling.Invalid "Please add at least one test sample".
Proof.
  refine (proj2 (proj2 (validateSamples_outcomes [])) _). reflexivity.
Defined.

(** The witness for X7: a sample typed and added, and the first one
    removed. *)
Lemma manual_edits_run_witness :
  let s := foldl PromptTester.editStep PromptTester.initial
             [PromptTester.TypeSample " Where is my order? ";
              PromptTester.ClickAdd; PromptTester.ClickRemove 0] in
  ErrorHandling.prepareRun ErrorHandling.noText "gpt-4o" s
  = (ErrorHandling.Valid,
     Some {| ErrorHandling.request_prompt :=
               PromptTester.finalPrompt ErrorHandling.noText s;
             ErrorHandling.request_model := "gpt-4o";
             ErrorHandling.test_samples := PromptTester.testSamples s |}).
Proof.
  intros s.
  refine (proj1 (proj2 (proj2 (manual_edits_run ErrorHandling.noText "gpt-4o"
            [PromptTester.TypeSample " Where is my order? ";
             PromptTester.ClickAdd; PromptTester.ClickRemove 0]))) _ _).
  - vm_compute. discriminate.
  - vm_compute. discriminate.
Defined.

(** The witness for X8: the form after the usage guide's document. *)
Lemma prompt_box_round_trip_witness :
  PromptTester.handlePromptChange
    (PromptTester.finalPrompt ErrorHandling.noText afterQaImport) afterQaImport
  = afterQaImport.
Proof.
  refine (proj2 (prompt_box_round_trip ErrorHandling.noText afterQaImport
                   "You are a helpful assistant." _ _ _)).
  - reflexivity.
  - discriminate.
  - reflexivity.
Defined.

(** The witness for X12. *)
Lemma session_index_in_range_witness :
  RatingModal.view_of
    (RatingModal.run
       (RatingModal.step RatingModal.closed (RatingModal.Open mixedRun)).1
       [RatingModal.ClickStar RatingModal.Star4; RatingModal.ClickNext;
        RatingModal.ClickNext; RatingModal.TimerFires 0])
  ≠ RatingModal.RenderThrows.
Proof.
  refine (proj1 (proj1 (proj2 (proj2 (session_index_in_range
            RatingModal.closed mixedRun
            [RatingModal.ClickStar RatingModal.Star4; RatingModal.ClickNext;
             RatingModal.ClickNext; RatingModal.TimerFires 0] _))) _ _ _)).
  - reflexivity.
  - discriminate.
  - reflexivity.
  - repeat constructor.
Defined.

(** The witness for X13 and X14: all three successful samples rated. *)
Lemma save_button_iff_total_witness :
  let m := RatingModal.run RatingModal.closed
             (rateAll RatingModal.Star5 RatingModal.Star4 RatingModal.Star3) in
  ∃ a, RatingModal.OnSaveRatings (RatingModal.ratings (RatingModal.st m)) a
       ∈ (RatingModal.step m RatingModal.ClickSave).2.
Proof.
  intros m.
  refine (proj1 (proj2 (proj2 (save_button_iff_total m okSample
                                 (reachable_run _) _) _))).
  - reflexivity.
  - reflexivity.
Defined.

Lemma saved_accuracy_bounds_witness :
  let m := RatingModal.run RatingModal.closed
             (rateAll RatingModal.Star5 RatingModal.Star4 RatingModal.Star3) in
  RatingModal.averageAccuracy
    (RatingModal.successfulSamples (RatingModal.samples m))
    (RatingModal.ratings (RatingModal.st m)) ≤ Qc_of_Z 100.
Proof.
  intros m.
  refine (proj2 (proj1 (proj2 (saved_accuracy_bounds m okSample
                                 (reachable_run _) _ _)))).
  - reflexivity.
  - intros i Hi. vm_compute in Hi.
    destruct i as [|[|[|i]]]; [by eexists..|lia].
Defined.

(** The witness for X15. *)
Lemma completed_rating_shows_witness :
  let m := RatingModal.run RatingModal.closed
             (rateAll RatingModal.Star5 RatingModal.Star4 RatingModal.Star3) in
  ∃ a hs',
    (RatingModal.step m RatingModal.ClickSave).2
    = [RatingModal.OnSaveRatings (RatingModal.ratings (RatingModal.st m)) a;
       RatingModal.ToastSuccess a; RatingModal.OnClose]
    ∧ ExperimentHistory.handleSaveRatings
        (RatingModal.ratings (RatingModal.st m)) a historyRating = Some hs'
    ∧ ExperimentHistory.manualRatings hs' !! "5"
      = Some {| ManualRating.ratings := RatingModal.ratings (RatingModal.st m);
                ManualRating.accuracy := a |}
    ∧ ∃ row, row ∈ ExperimentHistory.experiments hs'
             ∧ ExperimentHistory.exp row = ExperimentHistory.exp mixedRow
             ∧ ExperimentHistory.accuracyBadge row
               = ExperimentHistory.AccuracyBadge a.
Proof.
  intros m.
  refine (completed_rating_shows historyRating mixedRow m okSample
            _ _ (reachable_run _) _ _ _).
  - reflexivity.
  - apply list_elem_of_here.
  - reflexivity.
  - reflexivity.
  - intros i Hi. vm_compute in Hi.
    destruct i as [|[|[|i]]]; [by eexists..|lia].
Defined.

(** The witness for X16. *)
Lemma rowsAgree_kept_witness :
  ExperimentHistory.rowsAgree
    (ExperimentHistory.history
       (ExperimentHistory.handleClearExperiments true false
          {| ExperimentHistory.server_experiments := [];
             ExperimentHistory.localStorage := None;
             ExperimentHistory.history := historyRating |}).1).
Proof.
  refine (proj2 (proj2 (rowsAgree_kept historyRating)) _ true false [] None).
  intros h Hh. apply list_elem_of_singleton in Hh. subst h. reflexivity.
Defined.

(** The witness for X17. *)
Lemma sample_label_alignment_witness :
  RatingModal.successfulSamples (Some [okSample; failedSample; okSample]) !! 0%nat
  = [okSample; failedSample; okSample] !! 0%nat.
Proof.
  refine (proj1 (sample_label_alignment [okSample; failedSample; okSample] 0) _).
  intros j s Hj Hs. destruct j as [|j]; [|lia].
  injection Hs as <-. reflexivity.
Defined.


(** The witness for X19. *)
Lemma saved_keys_round_trip_witness :
  ApiKeySettings.handleSaveKeys storedKeys {[ "manualRatings" := "{}" ]}
    !! "manualRatings" = Some "{}".
Proof.
  refine (proj1 (proj2 (saved_keys_round_trip storedKeys
                          {[ "manualRatings" := "{}" ]} ∅))
            "manualRatings" _ _ _); discriminate.
Defined.

(** The witness for X20. *)
Lemma maskKey_hides_witness :
  length (ApiKeySettings.maskKey "sk-test-0123456789") = 12%nat
  ∧ length (filter (λ g, ApiKeySettings.isShown g)
              (ApiKeySettings.maskKey "sk-test-0123456789")) = 8%nat.
Proof.
  refine (proj1 (proj2 (proj2 (maskKey_hides "sk-test-0123456789"))) _).
  vm_compute. lia.
Defined.

(** The witness for X21. *)
Lemma retryOperation_any_bound_witness :
  (ErrorHandler.retryOperation brokenOp 5 1000).2
  = ErrorHandler.Throws (ErrorHandler.ErrorObject 4 (Some 500%Z))
  ∧ ErrorHandler.calls (ErrorHandler.retryOperation brokenOp 5 1000).1 = 5%nat
  ∧ (2 * ErrorHandler.totalWait (ErrorHandler.retryOperation brokenOp 5 1000).1
     = 1000 * (5 * (5 - 1)))%Z.
Proof.
  refine (proj2 (proj2 (retryOperation_any_bound brokenOp 5 1000%Z))
            (λ k, ErrorHandler.ErrorObject k (Some 500%Z)) _ _).
  - lia.
  - intros j _. split; [reflexivity|]. apply transient_status; lia.
Defined.

(** The witness for X22: a run in which every sample failed. *)
Lemma partialBanner_shown_witness :
  ResultsView.render false
    (Some (experiment "3" (Qc_of_Z 0) (Some (Q2Qc (1 # 100))) failedRun))
  = ResultsView.Page (Some (0%nat, 2%nat))
  ∧ (0 < 2)%nat.
Proof.
  split; [reflexivity|].
  refine (proj1 (proj2 (proj2 (proj2 (proj2 (partialBanner_shown
            (experiment "3" (Qc_of_Z 0) (Some (Q2Qc (1 # 100))) failedRun)
            [failedSample; failedSample] _))) 0%nat 2%nat _))).
  - reflexivity.
  - reflexivity.
Defined.

End ConcreteCases.
